(** * Violation tracker: the scrape / normalise / store / log pipeline

    A shallow embedding of [src/main.py] (the Cloud Function, MySQL and
    Cloud Storage) and [src/scraper.py] (the local script, SQLite and a
    log directory), and the properties of the pipeline proved on it.

    Conventions.
    - Python [str] values are lists of characters ([text]); a character is
      a code point below 256, which is where [str.strip], [int] and [float]
      are modelled exactly (beyond it Python knows more white space and
      more decimal digits). [int] is the one of CPython 3.11 and later,
      which [scraper.py] needs, with its default limit on the digits of a
      numeral.
    - Python [float] values are binary64 numbers, [spec_float] of the
      Standard Library with [prec = 53] and [emax = 1024]; [float(str)]
      rounds the decimal numeral to the nearest binary64, ties to even.
    - Code that raises returns an [outcome]; code with effects runs in the
      monad [M] over a [world] (event trace, database, log sink), and what
      the outside answers (HTTP responses, storage faults, the clock) comes
      from an [env] of oracles indexed by the number of earlier questions.
    - Where the two files differ, the definitions take the file as a
      parameter ([source_file]). *)

From Stdlib Require Import Ascii String DecimalString DecimalNat ZArith NArith Lia Bool
  Arith List.
From Stdlib Require Import Floats.SpecFloat.
Import ListNotations.

Set Implicit Arguments.

(** ** Text *)

Definition text := list ascii.

(** A string literal as a [text]. *)
Definition txt (s : string) : text := list_ascii_of_string s.

(** [str.isspace] of one character, on code points below 256: the
    controls 0x09-0x0D and 0x1C-0x1F, the space, NEL (0x85) and the
    no-break space (0xA0). *)
Definition isspace (c : ascii) : bool :=
  let n := N_of_ascii c in
  (((9 <=? n) && (n <=? 13)) || ((28 <=? n) && (n <=? 32))
   || (n =? 133) || (n =? 160))%N.

Definition isdigit (c : ascii) : bool :=
  let n := N_of_ascii c in ((48 <=? n) && (n <=? 57))%N.

Fixpoint lstrip (s : text) : text :=
  match s with
  | [] => []
  | c :: s' => if isspace c then lstrip s' else s
  end.

Definition rstrip (s : text) : text := rev (lstrip (rev s)).

(** [s.strip()] *)
Definition strip (s : text) : text := rstrip (lstrip s).

Fixpoint startswith (p s : text) : bool :=
  match p, s with
  | [], _ => true
  | _ :: _, [] => false
  | a :: p', b :: s' => Ascii.eqb a b && startswith p' s'
  end.

(** [s.replace(old, new)] for a non-empty [old]: the occurrences of [old]
    are found from the left and do not overlap. [skip] counts the
    characters of a matched occurrence that are still to be passed. *)
Fixpoint replace_from (old new : text) (skip : nat) (s : text) : text :=
  match s with
  | [] => []
  | c :: s' =>
      match skip with
      | S k => replace_from old new k s'
      | O =>
          if startswith old s
          then new ++ replace_from old new (length old - 1) s'
          else c :: replace_from old new 0 s'
      end
  end.

Definition replace (old new s : text) : text := replace_from old new 0 s.

(** ** Exceptions and outcomes *)

(** The exception classes the pipeline meets. All of them derive from
    [Exception]; [HTTPError] is [urllib.error.HTTPError], [RetryError] is
    what tenacity raises when it gives up (it carries the exception of the
    last attempt), [DatabaseError] stands for the driver's error class
    ([mysql.connector.Error], [sqlite3.Error]). *)
Inductive exn : Type :=
| HTTPError (status : nat)
| URLError
| TimeoutError
| UnicodeDecodeError
| RetryError (last : exn)
| AttributeError
| IndexError
| ValueError
| NameError
| DatabaseError
| OSError.

Inductive outcome (A : Type) : Type :=
| Returned (a : A)
| Raised (e : exn).

Arguments Returned {A} a.
Arguments Raised {A} e.

Definition obind {A B} (o : outcome A) (k : A -> outcome B) : outcome B :=
  match o with
  | Returned a => k a
  | Raised e => Raised e
  end.

Declare Scope outcome_scope.
Delimit Scope outcome_scope with outcome.
Notation "'let?' x ':=' o 'in' k" := (obind o (fun x => k))
  (at level 10, x name, o at level 100, k at level 200) : outcome_scope.

(** ** Numbers from text *)

(** Underscores in a numeral: each one stands between two digits.
    [prev] says whether the character before is a digit. *)
Fixpoint underscores_ok (prev : bool) (s : text) : bool :=
  match s with
  | [] => true
  | c :: s' =>
      if Ascii.eqb c "_" then
        prev && match s' with
                | d :: _ => isdigit d
                | [] => false
                end && underscores_ok false s'
      else underscores_ok (isdigit c) s'
  end.

Definition drop_underscores (s : text) : text :=
  filter (fun c => negb (Ascii.eqb c "_")) s.

(** An optional sign: [true] for a minus. *)
Definition split_sign (s : text) : bool * text :=
  match s with
  | c :: s' =>
      if Ascii.eqb c "-" then (true, s')
      else if Ascii.eqb c "+" then (false, s')
      else (false, s)
  | [] => (false, [])
  end.

(** The longest prefix of digits, and what follows it. *)
Fixpoint span_digits (s : text) : text * text :=
  match s with
  | c :: s' =>
      if isdigit c then let '(ds, rest) := span_digits s' in (c :: ds, rest)
      else ([], s)
  | [] => ([], [])
  end.

Definition digit_value (c : ascii) : N := (N_of_ascii c - 48)%N.

(** The number a sequence of decimal digits writes. *)
Definition decimal (ds : text) : N :=
  fold_left (fun acc c => (10 * acc + digit_value c)%N) ds 0%N.

(** The white space [int] and [float] skip around a numeral. They turn
    every white-space character above ASCII into a space and then skip
    what [isspace] of C accepts; on code points below 256 that makes
    0x09-0x0D, the space, NEL (0x85) and the no-break space (0xA0). The
    separators 0x1C-0x1F, which [str.strip] removes, are not skipped. *)
Definition numeral_space (c : ascii) : bool :=
  let n := N_of_ascii c in
  (((9 <=? n) && (n <=? 13)) || (n =? 32) || (n =? 133) || (n =? 160))%N.

Fixpoint skip_spaces (s : text) : text :=
  match s with
  | [] => []
  | c :: s' => if numeral_space c then skip_spaces s' else s
  end.

(** The numeral between the white space [int] and [float] skip. *)
Definition numeral_of (s : text) : text := rev (skip_spaces (rev (skip_spaces s))).

(** [sys.get_int_max_str_digits()], at its default. *)
Definition int_max_str_digits : N := 4300.

(** [int(s)] in base 10: white space around, an optional sign, digits
    with single underscores between them, and no more digits than
    [int_max_str_digits]. *)
Definition py_int (s : text) : outcome Z :=
  let s := numeral_of s in
  if negb (underscores_ok false s) then Raised ValueError else
  let '(neg, body) := split_sign (drop_underscores s) in
  match body with
  | [] => Raised ValueError
  | _ :: _ =>
      if forallb isdigit body && (N.of_nat (length body) <=? int_max_str_digits)%N
      then Returned (if neg then - Z.of_N (decimal body) else Z.of_N (decimal body))%Z
      else Raised ValueError
  end.

(** Python floats. *)
Definition pyfloat := spec_float.

Definition prec : Z := 53.
Definition emax : Z := 1024.

(** [0.0] *)
Definition float_zero : pyfloat := S754_zero false.

(** The binary64 nearest to [(-1)^neg * m * 10^e]. *)
Definition binary64_of_decimal (neg : bool) (m : N) (e : Z) : pyfloat :=
  match m with
  | N0 => S754_zero neg
  | Npos p =>
      if (0 <=? e)%Z
      then binary_round prec emax neg (p * Z.to_pos (10 ^ e)) 0
      else SFdiv prec emax (S754_finite neg p 0)
                           (S754_finite false (Z.to_pos (10 ^ (- e))) 0)
  end.

Definition lower (c : ascii) : ascii :=
  let n := N_of_ascii c in
  if ((65 <=? n) && (n <=? 90))%N then ascii_of_N (n + 32) else c.

Definition text_eqb (a b : text) : bool :=
  if list_eq_dec ascii_dec a b then true else false.

(** [floatnumber]: digits, an optional point and more digits (one of the
    two digit parts may be missing, not both), an optional exponent.
    Returns the digits read as one integer and the power of ten. *)
Definition floatnumber (s : text) : option (N * Z) :=
  let '(ip, r1) := span_digits s in
  let '(fp, r2) := match r1 with
                   | c :: r => if Ascii.eqb c "." then span_digits r else ([], r1)
                   | [] => ([], [])
                   end in
  match ip ++ fp with
  | [] => None
  | _ :: _ =>
      let m := decimal (ip ++ fp) in
      let shift := Z.of_nat (length fp) in
      match r2 with
      | [] => Some (m, - shift)%Z
      | c :: r3 =>
          if Ascii.eqb c "e" || Ascii.eqb c "E" then
            let '(eneg, ds) := split_sign r3 in
            match ds with
            | [] => None
            | _ :: _ =>
                if forallb isdigit ds
                then Some (m, (if eneg then - Z.of_N (decimal ds)
                               else Z.of_N (decimal ds)) - shift)%Z
                else None
            end
          else None
      end
  end.

(** [float(s)]: white space around, underscores between digits, an
    optional sign, then [inf], [infinity] or [nan] in any case, or a
    [floatnumber]. *)
Definition py_float (s : text) : outcome pyfloat :=
  let s := numeral_of s in
  if negb (underscores_ok false s) then Raised ValueError else
  let '(neg, body) := split_sign (drop_underscores s) in
  let word := map lower body in
  if text_eqb word (txt "inf") || text_eqb word (txt "infinity")
  then Returned (S754_infinity neg)
  else if text_eqb word (txt "nan") then Returned S754_nan
  else match floatnumber body with
       | Some (m, e) => Returned (binary64_of_decimal neg m e)
       | None => Raised ValueError
       end.


(** ** Records and pages *)

(** The dictionary built for one table row. *)
Record record : Type := {
  company : text;
  current_parent : option text;
  current_parent_industry : option text;
  primary_offense_type : text;
  year : Z;
  agency : text;
  penalty_amount : pyfloat
}.

(** [x or None] on a string. *)
Definition or_None (x : text) : option text :=
  match x with
  | [] => None
  | _ :: _ => Some x
  end.

(** [cols[i].text] *)
Definition cell (cols : list text) (i : nat) : outcome text :=
  match nth_error cols i with
  | Some c => Returned c
  | None => Raised IndexError
  end.

(** [cols[6].text.strip().replace('$', '').replace(',', '')] *)
Definition penalty_text_of (c : text) : text :=
  replace (txt ",") [] (replace (txt "$") [] (strip c)).

(** [float(penalty_text) if penalty_text else 0.0] *)
Definition penalty_amount_of (c : text) : outcome pyfloat :=
  match penalty_text_of c with
  | [] => Returned float_zero
  | _ :: _ => py_float (penalty_text_of c)
  end.

(** The body of the loop over the rows of a page, up to the [append]:
    the penalty first, then the fields of the dictionary in the order
    they are written. *)
Definition row_record (cols : list text) : outcome record :=
  (let? c6 := cell cols 6 in
   let? amount := penalty_amount_of c6 in
   let? c0 := cell cols 0 in
   let? c1 := cell cols 1 in
   let? c2 := cell cols 2 in
   let? c3 := cell cols 3 in
   let? c4 := cell cols 4 in
   let? y := py_int (strip c4) in
   let? c5 := cell cols 5 in
   Returned {| company := strip c0;
               current_parent := or_None (strip c1);
               current_parent_industry := or_None (strip c2);
               primary_offense_type := strip c3;
               year := y;
               agency := strip c5;
               penalty_amount := amount |})%outcome.

(** [for row in rows: ... records.append(record)]. The list [records] is
    changed in place, so what was appended before a row raises stays
    appended: the loop returns the list together with how it ended. *)
Fixpoint for_rows (rows : list (list text)) (records : list record)
  : list record * outcome unit :=
  match rows with
  | [] => (records, Returned tt)
  | row :: rest =>
      match row_record row with
      | Returned r => for_rows rest (records ++ [r])
      | Raised e => (records, Raised e)
      end
  end.

(** What BeautifulSoup finds in a response body: the table of class
    [views-table] if there is one, its [tbody] if it has one, and in it
    the rows, each the texts of its [td] cells. A body is identified with
    what the parser makes of it. *)
Record table_tag : Type := { tbody : option (list (list text)) }.
Record document : Type := { views_table : option table_tag }.

(** The two source files. *)
Inductive source_file : Type := main_py | scraper_py.

(** [urllib.request.Request(url, headers=headers)] *)
Record request : Type := {
  full_url : text;
  headers : list (text * text)
}.

(** ** Events, the world and the environment *)

Inductive level : Type := INFO | WARNING | ERROR.

(** The messages of the logger, with the values they format. *)
Inductive message : Type :=
| Retrying_request (attempt_number : nat)
| No_table_found (page : nat)
| Scraped_records (n page : nat)
| Error_on_page (page : nat) (e : exn)
| Error_fetching_page (page : nat) (e : exn)
| Unexpected_error_on_page (page : nat) (e : exn)
| Connected_to_database
| Connection_error (e : exn)
| Created_table
| Error_creating_table (e : exn)
| Stored_records (n : nat)
| Error_storing_records (e : exn)
| Saved_log (log_file : Z)
| Error_saving_log (e : exn)
| No_records_scraped
| Unexpected_error (e : exn)
| Finished_execution
| Connection_failed (e : exn)
| Connection_closed
| Starting_scraper.

Inductive event : Type :=
| Sleep (seconds : Z)
| Request (url : text)
| Log (lvl : level) (msg : message).

(** The table [violations] as one connection sees it: the rows committed
    and the rows of the open transaction on top of them. A row is the
    seven values inserted; the columns [id] and [created_at], which the
    engine fills and the program never reads, are left out. *)
Record database : Type := {
  committed : list record;
  working : list record
}.

(** The JSON object of a run. *)
Record run_log : Type := {
  timestamp : Z;
  records_processed : nat
}.

Record world : Type := {
  trace : list event;            (* what happened, oldest first *)
  asked : nat;                   (* questions put to the environment *)
  db : database;
  sink : list (Z * run_log)      (* log objects written, under the time
                                    stamp of their name *)
}.

(** What the outside answers to the n-th question of a run. *)
Record env : Type := {
  urlopen : nat -> request -> Z -> outcome document;
     (* [urlopen(req, timeout)], [read] and [decode] of one attempt *)
  db_fault : nat -> option exn;       (* a database call raises *)
  sink_fault : nat -> option exn;     (* writing the log object raises *)
  verify_fault : nat -> option exn;   (* [verify_results] raises *)
  now : nat -> Z                      (* [datetime.now], in seconds *)
}.

Definition M (A : Type) : Type := world -> outcome A * world.

Definition ret {A} (a : A) : M A := fun w => (Returned a, w).

Definition raise {A} (e : exn) : M A := fun w => (Raised e, w).

Definition bind {A B} (m : M A) (k : A -> M B) : M B :=
  fun w =>
    match m w with
    | (Returned a, w') => k a w'
    | (Raised e, w') => (Raised e, w')
    end.

(** [try: m except Exception as e: h e] *)
Definition try_except {A} (m : M A) (h : exn -> M A) : M A :=
  fun w =>
    match m w with
    | (Returned a, w') => (Returned a, w')
    | (Raised e, w') => h e w'
    end.

(** [try: m finally: f] *)
Definition try_finally {A} (m : M A) (f : M unit) : M A :=
  fun w =>
    let '(r, w') := m w in
    match f w' with
    | (Returned _, w'') => (r, w'')
    | (Raised e, w'') => (Raised e, w'')
    end.

Declare Scope M_scope.
Delimit Scope M_scope with M.
Notation "x <- m ;; k" := (bind m (fun x => k))
  (at level 61, m at next level, right associativity) : M_scope.
Notation "m ;; k" := (bind m (fun _ => k))
  (at level 61, right associativity) : M_scope.

Definition emit (ev : event) : M unit :=
  fun w => (Returned tt,
            {| trace := trace w ++ [ev]; asked := asked w;
               db := db w; sink := sink w |}).

Definition logger (lvl : level) (msg : message) : M unit := emit (Log lvl msg).

(** [time.sleep(seconds)] *)
Definition sleep (seconds : Z) : M unit := emit (Sleep seconds).

(** The number of the next question; asking advances it. *)
Definition ask : M nat :=
  fun w => (Returned (asked w),
            {| trace := trace w; asked := S (asked w);
               db := db w; sink := sink w |}).

Definition set_db (d : database) : M unit :=
  fun w => (Returned tt,
            {| trace := trace w; asked := asked w; db := d; sink := sink w |}).

Definition get_db : M database := fun w => (Returned (db w), w).

Definition write_sink (name : Z) (l : run_log) : M unit :=
  fun w => (Returned tt,
            {| trace := trace w; asked := asked w; db := db w;
               sink := sink w ++ [(name, l)] |}).

(** ** The program *)

Section Pipeline.

Variable src : source_file.
Variable E : env.

Local Open Scope M_scope.

(** *** fetch_page and its retry decorator *)

(** The [User-Agent] header of the file. *)
Definition user_agent : text :=
  match src with
  | main_py => txt "Mozilla/5.0"
  | scraper_py =>
      txt "Mozilla/5.0 (X11; Linux x86_64) AppleWebKit/537.36 (KHTML, like Gecko) Chrome/134.0.0.0 Safari/537.36"
  end.

(** [req]: the request the file makes for a URL. *)
Definition request_of (url : text) : request :=
  {| full_url := url; headers := [(txt "User-Agent", user_agent)] |}.

(** The body of [fetch_page]: one request, with a timeout of ten
    seconds. *)
Definition fetch_once (url : text) : M document :=
  let req := request_of url in
  n <- ask ;;
  emit (Request url) ;;
  match urlopen E n req 10 with
  | Returned html => ret html
  | Raised e => raise e
  end.

(** tenacity's [stop_after_attempt(max_attempt_number)] *)
Definition stop_after_attempt (max_attempt_number attempt_number : nat) : bool :=
  (max_attempt_number <=? attempt_number)%nat.

(** tenacity's [wait_exponential(multiplier, min, max)], with the default
    [exp_base = 2]: [multiplier * 2 ** (attempt_number - 1)], kept between
    [max(0, min)] and [max]. *)
Definition wait_exponential (multiplier min max : Z) (attempt_number : nat) : Z :=
  Z.max (Z.max 0 min)
        (Z.min (multiplier * 2 ^ (Z.of_nat attempt_number - 1)) max).

(** [retry_if_exception_type(urllib.error.HTTPError)] *)
Definition retry_if_HTTPError (e : exn) : bool :=
  match e with
  | HTTPError _ => true
  | _ => false
  end.

(** The loop of the decorator, after attempt [attempt_number - 1]: call
    the body; an exception the predicate does not select is raised as it
    is; a selected one ends the call with [RetryError] when the stop
    condition holds, and otherwise is followed by the [before_sleep]
    log line, the wait and the next attempt. [fuel] bounds the recursion
    (see [retrying_fuel]: it never runs out before the stop condition). *)
Fixpoint retrying (fuel : nat) (attempt_number : nat) (url : text) : M document :=
  try_except (fetch_once url) (fun e =>
    if negb (retry_if_HTTPError e) then raise e
    else if stop_after_attempt 3 attempt_number then raise (RetryError e)
    else match fuel with
         | O => raise (RetryError e)
         | S fuel' =>
             logger INFO (Retrying_request attempt_number) ;;
             sleep (wait_exponential 1 2 10 attempt_number) ;;
             retrying fuel' (S attempt_number) url
         end).

Definition fetch_page (url : text) : M document := retrying 3 1 url.

(** *** scrape_violation_tracker *)

Definition base_url : text :=
  txt "https://violationtracker.goodjobsfirst.org/?company_op=starts&company=&penalty_op=%3E&penalty=&offense_group=&case_category=&govt_level=&agency_code_st%5B%5D=&pres_term=&case_type=&free_text=&hq_id=&state=PR&order=pen_year&sort=".

(** [str(page)] *)
Definition str_of_nat (n : nat) : text :=
  txt (DecimalString.NilEmpty.string_of_uint (Nat.to_uint n)).

(** [f"{base_url}&page={page}" if page > 1 else base_url] *)
Definition page_url (page : nat) : text :=
  if (1 <? page)%nat then base_url ++ txt "&page=" ++ str_of_nat page
  else base_url.

(** The [try] block of one page, from [fetch_page] to the [Scraped] log
    line. It returns the list [records] as the block leaves it, and how
    the block ended; the missing table ends it normally ([continue]). *)
Definition try_page (page : nat) (records : list record)
  : world -> (list record * outcome unit) * world :=
  fun w =>
    match fetch_page (page_url page) w with
    | (Raised e, w1) => ((records, Raised e), w1)
    | (Returned html, w1) =>
        match views_table html with
        | None =>
            ((records, Returned tt),
             snd (logger (match src with main_py => WARNING | scraper_py => ERROR end)
                         (No_table_found page) w1))
        | Some table =>
            match tbody table with
            | None => ((records, Raised AttributeError), w1)
            | Some rows =>
                match for_rows rows records with
                | (records', Returned _) =>
                    ((records', Returned tt),
                     snd (logger INFO (Scraped_records (length rows) page) w1))
                | (records', Raised e) => ((records', Raised e), w1)
                end
            end
        end
    end.

(** The log line of the [except] clauses: one clause in [main.py], two in
    [scraper.py]. *)
Definition page_error_message (page : nat) (e : exn) : message :=
  match src with
  | main_py => Error_on_page page e
  | scraper_py =>
      if retry_if_HTTPError e then Error_fetching_page page e
      else Unexpected_error_on_page page e
  end.

(** One turn of the loop over the pages: the delay, the [try] block and
    its [except] clauses, which log and go on. *)
Definition scrape_page (page : nat) (records : list record)
  : world -> list record * world :=
  fun w =>
    match try_page page records (snd (sleep 10 w)) with
    | ((records', Returned _), w1) => (records', w1)
    | ((records', Raised e), w1) =>
        (records', snd (logger ERROR (page_error_message page e) w1))
    end.

(** [for page in pages] *)
Fixpoint for_pages (pages : list nat) (records : list record)
  : world -> list record * world :=
  fun w =>
    match pages with
    | [] => (records, w)
    | page :: rest =>
        let '(records', w') := scrape_page page records w in
        for_pages rest records' w'
    end.

(** [range(1, 4)] *)
Definition pages : list nat := seq 1 3.

Definition scrape_violation_tracker : M (list record) :=
  fun w => let '(records, w') := for_pages pages [] w in (Returned records, w').

(** *** The database *)

(** Two floats hold the same value of the column [penalty_amount]: they
    compare equal as numbers (the two zeros do), or are both nan. *)
Definition float_same (a b : pyfloat) : bool :=
  match a, b with
  | S754_nan, S754_nan => true
  | _, _ => SFeqb a b
  end.

(** [UNIQUE (company, year, agency, penalty_amount)]: two rows clash when
    they agree on the four columns. A row holds the values the program
    passes; what MySQL does to a value on its way into a column (the
    scale of [DECIMAL(15,2)], the length of [VARCHAR], the collation of
    text, the NULL its connector sends for a nan) is not modelled. *)
Definition same_key (a b : record) : bool :=
  text_eqb (company a) (company b) && (year a =? year b)%Z
  && text_eqb (agency a) (agency b)
  && float_same (penalty_amount a) (penalty_amount b).

Definition float_isnan (x : pyfloat) : bool :=
  match x with
  | S754_nan => true
  | _ => false
  end.

(** The row breaks [NOT NULL]. The strings and the year of a record are
    never [None]; [sqlite3] binds a nan as NULL, which the column
    [penalty_amount] of [scraper.py] does not take. (For MySQL a row
    holds the values as passed, see [same_key].) *)
Definition not_null_fails (r : record) : bool :=
  match src with
  | main_py => false
  | scraper_py => float_isnan (penalty_amount r)
  end.

(** [INSERT IGNORE INTO violations ...] ([INSERT OR IGNORE] in SQLite) on
    the rows of the connection: a row that breaks a constraint of the
    table ([NOT NULL], [UNIQUE]) is skipped, any other is added. *)
Definition insert_ignore (r : record) (rows : list record) : list record :=
  if not_null_fails r || existsb (same_key r) rows then rows else rows ++ [r].

(** A call of the driver: it raises when the environment says so, and
    else changes the database by [f]. *)
Definition db_call (f : database -> database) : M unit :=
  n <- ask ;;
  match db_fault E n with
  | Some e => raise e
  | None => d <- get_db ;; set_db (f d)
  end.

Definition cursor : M unit := db_call (fun d => d).

Definition execute_insert (r : record) : M unit :=
  db_call (fun d => {| committed := committed d;
                       working := insert_ignore r (working d) |}).

(** [CREATE TABLE IF NOT EXISTS violations ...]: no row changes. *)
Definition execute_create : M unit := db_call (fun d => d).

Definition commit : M unit :=
  db_call (fun d => {| committed := working d; working := working d |}).

(** [conn.close()]: the open transaction is dropped. *)
Definition close : M unit :=
  d <- get_db ;; set_db {| committed := committed d; working := committed d |}.

(** [except mysql.connector.Error] / [except sqlite3.Error] *)
Definition is_database_error (e : exn) : bool :=
  match e with
  | DatabaseError => true
  | _ => false
  end.

(** [try: m except <driver error> as e: logger.error(msg e); raise] *)
Definition logging_database_errors {A} (msg : exn -> message) (m : M A) : M A :=
  try_except m (fun e =>
    if is_database_error e then logger ERROR (msg e) ;; raise e
    else raise e).

(** [connect_to_mysql] / [connect_to_sqlite] *)
Definition connect : M unit :=
  logging_database_errors Connection_error
    (db_call (fun d => d) ;; logger INFO Connected_to_database).

Definition create_table : M unit :=
  logging_database_errors Error_creating_table
    (cursor ;; execute_create ;; commit ;; logger INFO Created_table).

(** [for record in records: cursor.execute(...)] *)
Fixpoint for_records (records : list record) : M unit :=
  match records with
  | [] => ret tt
  | r :: rest => execute_insert r ;; for_records rest
  end.

Definition store_records (records : list record) : M unit :=
  logging_database_errors Error_storing_records
    (cursor ;; for_records records ;; commit ;;
     logger INFO (Stored_records (length records))).

(** *** The run log *)

(** A call that writes to the log sink (the bucket of [main.py], the
    [logs] directory of [scraper.py]): it raises when the environment
    says so. *)
Definition sink_call : M unit :=
  n <- ask ;;
  match sink_fault E n with
  | Some e => raise e
  | None => ret tt
  end.

(** [save_logs]. The object is built, with the time of the clock; its
    name is taken from a second reading of the clock; it is written and
    the writing is logged. [main.py] uploads inside
    [try ... except Exception] and logs a failure; [scraper.py] creates
    the directory and writes the file without a handler. *)
Definition save_logs (records : list record) : M unit :=
  t <- ask ;;
  let log_data := {| timestamp := now E t;
                     records_processed := length records |} in
  match src with
  | main_py =>
      t' <- ask ;;
      let log_file := now E t' in
      try_except
        (sink_call ;;
         write_sink log_file log_data ;;
         logger INFO (Saved_log log_file))
        (fun e => logger ERROR (Error_saving_log e))
  | scraper_py =>
      sink_call ;;
      t' <- ask ;;
      let log_file := now E t' in
      sink_call ;;
      write_sink log_file log_data ;;
      logger INFO (Saved_log log_file)
  end.

(** [verify_results] of [scraper.py]: it reads the database and the log
    directory and prints; it changes nothing, and may raise. *)
Definition verify_results : M unit :=
  n <- ask ;;
  match verify_fault E n with
  | Some e => raise e
  | None => ret tt
  end.

End Pipeline.

(** *** The entry points *)

Section EntryPoints.

Variable E : env.

Local Open Scope M_scope.

(** [if records:] *)
Definition nonempty {A} (l : list A) : bool :=
  match l with
  | [] => false
  | _ :: _ => true
  end.

(** [main_scraper] of [main.py]. [connected] records whether [conn] was
    bound, for the [finally] clause. *)
Definition main_scraper : M unit :=
  fun w =>
    let '(connected, (r, w1)) :=
      match connect E w with
      | (Raised e, w0) => (false, (Raised e, w0))
      | (Returned _, w0) =>
          (true,
           (create_table E ;;
            records <- scrape_violation_tracker main_py E ;;
            if nonempty records
            then store_records main_py E records ;; save_logs main_py E records
            else logger INFO No_records_scraped) w0)
      end in
    let w2 :=
      match r with
      | Returned _ => w1
      | Raised e => snd (logger ERROR (Unexpected_error e) w1)
      end in
    let w3 := if connected then snd (close w2) else w2 in
    logger INFO Finished_execution w3.

(** [run_scraper] of [main.py], the entry point of the Cloud Function. *)
Definition run_scraper : M (text * nat) :=
  logger INFO Starting_scraper ;;
  main_scraper ;;
  ret (txt "Scraper completed.", 200%nat).

(** [main] of [scraper.py]. *)
Definition main : M unit :=
  fun w =>
    match connect E w with
    | (Raised e, w0) => logger ERROR (Connection_failed e) w0
    | (Returned _, w0) =>
        try_finally
          (create_table E ;;
           records <- scrape_violation_tracker scraper_py E ;;
           (if nonempty records then store_records scraper_py E records else ret tt) ;;
           save_logs scraper_py E records ;;
           verify_results E)
          (close ;; logger INFO Connection_closed) w0
    end.

(** The run of a file. *)
Definition run (src : source_file) : M unit :=
  match src with
  | main_py => main_scraper
  | scraper_py => main
  end.

End EntryPoints.

(** ** Vocabulary of the properties *)

(** [t] is [s] without the white space around it: [s] is [t] between two
    runs of white space, and [t] neither starts nor ends with one. *)
Definition trimmed_of (s t : text) : Prop :=
  exists l r,
    s = l ++ t ++ r
    /\ forallb isspace l = true /\ forallb isspace r = true
    /\ match t with c :: _ => isspace c = false | [] => True end
    /\ match rev t with c :: _ => isspace c = false | [] => True end.

(** The characters the penalty text loses. *)
Definition is_currency_mark (c : ascii) : bool :=
  Ascii.eqb c "$" || Ascii.eqb c ",".



(** The rows of a page and the records they give, row by row. *)
Definition rows_give (rows : list (list text)) (recs : list record) : Prop :=
  Forall2 (fun row r => row_record row = Returned r) rows recs.

(** A page with a table that has a body. *)
Definition page_of (rows : list (list text)) : document :=
  {| views_table := Some {| tbody := Some rows |} |}.

(** The world after the request of one attempt. *)
Definition requested (url : text) (w : world) : world :=
  {| trace := trace w ++ [Request url]; asked := S (asked w);
     db := db w; sink := sink w |}.

(** The waits and the retry log lines of a trace. *)
Fixpoint sleeps (evs : list event) : list Z :=
  match evs with
  | [] => []
  | Sleep s :: evs' => s :: sleeps evs'
  | _ :: evs' => sleeps evs'
  end.

Fixpoint retry_lines (evs : list event) : list nat :=
  match evs with
  | [] => []
  | Log INFO (Retrying_request n) :: evs' => n :: retry_lines evs'
  | _ :: evs' => retry_lines evs'
  end.

(** The world after the log line and the wait of a retry. *)
Definition backed_off (attempt_number : nat) (w : world) : world :=
  {| trace := (trace w ++ [Log INFO (Retrying_request attempt_number)])
              ++ [Sleep (wait_exponential 1 2 10 attempt_number)];
     asked := asked w; db := db w; sink := sink w |}.

(** The events of a retry: the log line, the wait, the next request. *)
Definition retry_events (url : text) (attempt_number : nat) : list event :=
  [Log INFO (Retrying_request attempt_number);
   Sleep (wait_exponential 1 2 10 attempt_number);
   Request url].

(** The lines the logger wrote. *)
Fixpoint log_lines (evs : list event) : list (level * message) :=
  match evs with
  | [] => []
  | Log lvl msg :: evs' => (lvl, msg) :: log_lines evs'
  | _ :: evs' => log_lines evs'
  end.

(** The wait schedule in the words of the specification: a base delay of
    [base], doubled after each attempt, at most [cap]. *)
Definition doubling_backoff (base cap : Z) (attempt_number : nat) : Z :=
  Z.min (base * 2 ^ (Z.of_nat attempt_number - 1)) cap.

(** The four columns of the uniqueness constraint. *)
Definition unique_key (r : record) : text * Z * text * pyfloat :=
  (company r, year r, agency r, penalty_amount r).

(** No row of a table clashes with a row stored before it. *)
Inductive clash_free : list record -> Prop :=
| clash_free_nil : clash_free []
| clash_free_snoc rows r :
    clash_free rows -> existsb (same_key r) rows = false ->
    clash_free (rows ++ [r]).

(** The insert of a record into the rows is skipped. *)
Definition skipped (src : source_file) (r : record) (rows : list record) : bool :=
  not_null_fails src r || existsb (same_key r) rows.

(** The rows after the inserts of a batch. *)
Definition inserted (src : source_file) (records rows : list record) : list record :=
  fold_left (fun rows r => insert_ignore src r rows) records rows.

(** The changes a file makes to its table: none (a call that changes no
    row), an insert, a commit, the end of the connection. *)
Inductive db_op (src : source_file) : (database -> database) -> Prop :=
| op_none : db_op src (fun d => d)
| op_insert r :
    db_op src (fun d => {| committed := committed d;
                           working := insert_ignore src r (working d) |})
| op_commit : db_op src (fun d => {| committed := working d; working := working d |})
| op_close : db_op src (fun d => {| committed := committed d; working := committed d |}).

(** The states of the table: it starts empty and changes by [db_op]. *)
Inductive reachable (src : source_file) : database -> Prop :=
| reach_empty : reachable src {| committed := []; working := [] |}
| reach_step f d : db_op src f -> reachable src d -> reachable src (f d).

(** Every run of [m] takes a world to one that [R] relates to it. *)
Definition steps_by (R : world -> world -> Prop) {A} (m : M A) : Prop :=
  forall w, R w (snd (m w)).

Definition sink_kept (w w' : world) : Prop := sink w' = sink w.

Definition db_kept (w w' : world) : Prop := db w' = db w.

Definition table_reachable (src : source_file) (w w' : world) : Prop :=
  reachable src (db w) -> reachable src (db w').

(** ** Sample data *)

Module Sample.

Definition acme_row : list text :=
  map txt ["Acme Co"; ""; ""; "Pollution"; "2019"; "EPA"; "$1,250.00"]%string.

Definition acme : record :=
  {| company := txt "Acme Co";
     current_parent := None;
     current_parent_industry := None;
     primary_offense_type := txt "Pollution";
     year := 2019;
     agency := txt "EPA";
     penalty_amount := S754_finite false 5497558138880000 (-42) |}.

(** The same violation under a parent company. *)
Definition acme_with_parent : record :=
  {| company := txt "Acme Co";
     current_parent := Some (txt "Acme Holdings");
     current_parent_industry := Some (txt "chemicals");
     primary_offense_type := txt "Pollution";
     year := 2019;
     agency := txt "EPA";
     penalty_amount := S754_finite false 5497558138880000 (-42) |}.

Definition bolt_row : list text :=
  map txt ["  Bolt LLC "; " Bolt Group "; ""; "Wage theft"; " 2021"; "DOL "; ""]%string.

Definition bolt : record :=
  {| company := txt "Bolt LLC";
     current_parent := Some (txt "Bolt Group");
     current_parent_industry := None;
     primary_offense_type := txt "Wage theft";
     year := 2021;
     agency := txt "DOL";
     penalty_amount := float_zero |}.

(** A row whose year is not a number. *)
Definition undated_row : list text :=
  map txt ["Cargo Inc"; ""; ""; "Safety"; "n/a"; "OSHA"; "$10"]%string.

(** A row whose penalty is not a number. *)
Definition unpriced_row : list text :=
  map txt ["Cargo Inc"; ""; ""; "Safety"; "2020"; "OSHA"; "$ten"]%string.

Definition no_table : document := {| views_table := None |}.

Definition empty_db : database := {| committed := []; working := [] |}.

Definition start : world :=
  {| trace := []; asked := 0; db := empty_db; sink := [] |}.

(** An environment that serves one document per page and never fails
    outside the network. *)
Definition serving (page1 page2 page3 : outcome document) : env :=
  {| urlopen := fun _ req _ =>
       if text_eqb (full_url req) (page_url 1) then page1
       else if text_eqb (full_url req) (page_url 2) then page2
       else page3;
     db_fault := fun _ => None;
     sink_fault := fun _ => None;
     verify_fault := fun _ => None;
     now := fun n => (1700000000 + Z.of_nat n)%Z |}.

(** Page 2 is down; pages 1 and 3 have one row each. *)
Definition page2_down : env :=
  serving (Returned (page_of [acme_row])) (Raised (HTTPError 503))
          (Returned (page_of [bolt_row])).

(** Page 1 has a good row followed by a row without a year. *)
Definition page1_breaks : env :=
  serving (Returned (page_of [acme_row; undated_row; bolt_row]))
          (Returned no_table) (Returned no_table).

(** Page 1 has a good row followed by a row without a penalty; page 3 is
    fine. *)
Definition page1_unpriced : env :=
  serving (Returned (page_of [acme_row; unpriced_row]))
          (Returned no_table) (Returned (page_of [bolt_row])).

(** No page has a table. *)
Definition nothing_found : env :=
  serving (Returned no_table) (Returned no_table) (Returned no_table).

(** Two rows are found, and the log cannot be written. *)
Definition log_sink_down : env :=
  {| urlopen := urlopen page2_down;
     db_fault := fun _ => None;
     sink_fault := fun _ => Some OSError;
     verify_fault := fun _ => None;
     now := now page2_down |}.

(** Every request is answered by the same HTTP error. *)
Definition always_503 : env :=
  serving (Raised (HTTPError 503)) (Raised (HTTPError 503)) (Raised (HTTPError 503)).

End Sample.

(** ** More vocabulary *)

(** The URLs requested in a trace, in order. *)
Fixpoint request_urls (evs : list event) : list text :=
  match evs with
  | [] => []
  | Request url :: evs' => url :: request_urls evs'
  | _ :: evs' => request_urls evs'
  end.

(** The time slept in a trace. *)
Definition slept (evs : list event) : Z := fold_right Z.add 0%Z (sleeps evs).

(** [l'] is [l] with rows added at its end. *)
Definition extends (l l' : list record) : Prop := exists added, l' = l ++ added.

(** The committed rows are kept: when the transaction of [w] sits on top
    of its committed rows, so does that of [w'], and the committed rows
    of [w] are the first committed rows of [w']. *)
Definition rows_kept (w w' : world) : Prop :=
  extends (committed (db w)) (working (db w)) ->
  extends (committed (db w')) (working (db w'))
  /\ extends (committed (db w)) (committed (db w')).

(** A cell made of white space and currency marks only. *)
Definition blank_cell (c : text) : bool :=
  forallb (fun x => isspace x || is_currency_mark x) c.

(** The events of one page turn: the delay, the first request, [k]
    retries, and the log lines [tail] that close the turn. *)
Definition page_events (url : text) (k : nat) (tail : list event) : list event :=
  Sleep 10 :: Request url :: flat_map (retry_events url) (seq 1 k) ++ tail.

(** An environment whose database fails at its call number [k], with an
    error of the driver, and at no other call. *)
Definition database_fails_at (k : nat) : env :=
  {| urlopen := urlopen Sample.page2_down;
     db_fault := fun n => if (n =? k)%nat then Some DatabaseError else None;
     sink_fault := fun _ => None;
     verify_fault := fun _ => None;
     now := now Sample.page2_down |}.





(** * Properties *)

Unset Implicit Arguments.

(** ** Text *)

Section TextFacts.

Lemma lstrip_split (s : text) :
  exists l, s = l ++ lstrip s /\ forallb isspace l = true.
Proof.
  induction s as [|c s IH]; simpl.
  - exists []. split; reflexivity.
  - destruct (isspace c) eqn:Hc.
    + destruct IH as [l [Hs Hl]]. exists (c :: l). simpl.
      rewrite Hc, Hl. split; [f_equal; exact Hs | reflexivity].
    + exists []. split; reflexivity.
Qed.

Lemma lstrip_head (s : text) :
  match lstrip s with c :: _ => isspace c = false | [] => True end.
Proof.
  induction s as [|c s IH]; simpl; [exact I|].
  destruct (isspace c) eqn:Hc; [exact IH | exact Hc].
Qed.

Lemma forallb_rev {A} (f : A -> bool) (l : list A) :
  forallb f (rev l) = forallb f l.
Proof.
  induction l as [|a l IH]; simpl; [reflexivity|].
  rewrite forallb_app, IH. simpl. rewrite andb_true_r. apply andb_comm.
Qed.

Lemma rstrip_split (s : text) :
  exists r, s = rstrip s ++ r /\ forallb isspace r = true.
Proof.
  unfold rstrip. destruct (lstrip_split (rev s)) as [l [Hs Hl]].
  exists (rev l). split.
  - rewrite <- rev_app_distr, <- Hs, rev_involutive. reflexivity.
  - rewrite forallb_rev. exact Hl.
Qed.

Lemma rstrip_last (s : text) :
  match rev (rstrip s) with c :: _ => isspace c = false | [] => True end.
Proof. unfold rstrip. rewrite rev_involutive. apply lstrip_head. Qed.

Lemma strip_trimmed (s : text) : trimmed_of s (strip s).
Proof.
  unfold strip.
  destruct (lstrip_split s) as [l [Hs Hl]].
  destruct (rstrip_split (lstrip s)) as [r [Hu Hr]].
  exists l, r. repeat split; try assumption.
  - rewrite <- Hu. exact Hs.
  - pose proof (lstrip_head s) as Hh. rewrite Hu in Hh.
    destruct (rstrip (lstrip s)); [exact I | exact Hh].
  - apply rstrip_last.
Qed.

Lemma replace_char (c : ascii) (s : text) :
  replace [c] [] s = filter (fun x => negb (Ascii.eqb c x)) s.
Proof.
  unfold replace. induction s as [|a s IH]; simpl; [reflexivity|].
  rewrite andb_true_r. destruct (Ascii.eqb c a); simpl; rewrite IH; reflexivity.
Qed.

Lemma filter_filter {A} (f g : A -> bool) (l : list A) :
  filter f (filter g l) = filter (fun x => g x && f x) l.
Proof.
  induction l as [|a l IH]; simpl; [reflexivity|].
  destruct (g a); simpl; [destruct (f a)|]; rewrite IH; reflexivity.
Qed.

Lemma penalty_text_filter (c : text) :
  penalty_text_of c = filter (fun x => negb (is_currency_mark x)) (strip c).
Proof.
  unfold penalty_text_of. change (txt ",") with [","%char].
  change (txt "$") with ["$"%char].
  rewrite !replace_char, filter_filter. apply filter_ext. intros a.
  unfold is_currency_mark. rewrite negb_orb.
  rewrite (Ascii.eqb_sym a "$"), (Ascii.eqb_sym a ","). reflexivity.
Qed.

Lemma lstrip_blank s : forallb isspace s = true -> lstrip s = [].
Proof.
  induction s as [|c s IH]; simpl; [reflexivity|].
  intros H. apply andb_prop in H. destruct H as [Hc Hs]. rewrite Hc. auto.
Qed.

Lemma strip_blank s : forallb isspace s = true -> strip s = [].
Proof. intros H. unfold strip, rstrip. rewrite (lstrip_blank s H). reflexivity. Qed.




Lemma skip_spaces_split (s : text) :
  exists l, s = l ++ skip_spaces s /\ forallb numeral_space l = true.
Proof.
  induction s as [|c s IH]; simpl.
  - exists []. split; reflexivity.
  - destruct (numeral_space c) eqn:Hc.
    + destruct IH as [l [Hs Hl]]. exists (c :: l). simpl.
      rewrite Hc, Hl. split; [f_equal; exact Hs | reflexivity].
    + exists []. split; reflexivity.
Qed.



(** The numeral is the text between two runs of its white space. *)
Lemma numeral_of_split (s : text) :
  exists l r, s = l ++ numeral_of s ++ r
              /\ forallb numeral_space l = true /\ forallb numeral_space r = true.
Proof.
  unfold numeral_of.
  destruct (skip_spaces_split s) as [l [Hs Hl]].
  destruct (skip_spaces_split (rev (skip_spaces s))) as [r [Hu Hr]].
  exists l, (rev r). repeat split.
  - rewrite <- rev_app_distr, <- Hu, rev_involutive. exact Hs.
  - exact Hl.
  - rewrite forallb_rev. exact Hr.
Qed.

Lemma numeral_of_part (f : ascii -> bool) s :
  forallb f s = true -> forallb f (numeral_of s) = true.
Proof.
  intros H. destruct (numeral_of_split s) as [l [r [Hs _]]].
  rewrite Hs, !forallb_app in H.
  apply andb_prop in H. destruct H as [_ H].
  apply andb_prop in H. destruct H as [H _]. exact H.
Qed.




Lemma py_float_raises (s : text) (e : exn) :
  py_float s = Raised e -> e = ValueError.
Proof.
  unfold py_float.
  destruct (negb (underscores_ok false (numeral_of s))); [congruence|].
  destruct (split_sign (drop_underscores (numeral_of s))) as [neg body].
  destruct (_ || _); [discriminate|].
  destruct (text_eqb _ _); [discriminate|].
  destruct (floatnumber body) as [[m e10]|]; congruence.
Qed.

Lemma py_int_raises (s : text) (e : exn) :
  py_int s = Raised e -> e = ValueError.
Proof.
  unfold py_int.
  destruct (negb (underscores_ok false (numeral_of s))); [congruence|].
  destruct (split_sign (drop_underscores (numeral_of s))) as [neg body].
  destruct body; [congruence|].
  destruct (_ && _); congruence.
Qed.

Lemma penalty_amount_raises (c : text) (e : exn) :
  penalty_amount_of c = Raised e -> e = ValueError.
Proof.
  unfold penalty_amount_of. destruct (penalty_text_of c); [discriminate|].
  apply py_float_raises.
Qed.

End TextFacts.

(** ** Rows *)

Section RowFacts.

Lemma for_rows_give rows : forall recs records,
  rows_give rows recs -> for_rows rows records = (records ++ recs, Returned tt).
Proof.
  induction rows as [|row rows IH]; intros recs records H; inversion H; subst; simpl.
  - rewrite app_nil_r. reflexivity.
  - match goal with Hr : row_record row = _ |- _ => rewrite Hr end.
    erewrite IH by eassumption. rewrite <- app_assoc. reflexivity.
Qed.

Lemma for_rows_inv rows : forall records records' o,
  for_rows rows records = (records', o) ->
  match o with
  | Returned _ => exists recs, rows_give rows recs /\ records' = records ++ recs
  | Raised e =>
      exists before bad after recs,
        rows = before ++ bad :: after /\ rows_give before recs
        /\ row_record bad = Raised e /\ records' = records ++ recs
  end.
Proof.
  induction rows as [|row rows IH]; intros records records' o H; simpl in H.
  - inversion H; subst. exists []. split; [constructor | now rewrite app_nil_r].
  - destruct (row_record row) as [r|e] eqn:Hr.
    + apply IH in H. destruct o as [[]|e].
      * destruct H as [recs [Hg ->]]. exists (r :: recs). split.
        -- constructor; assumption.
        -- rewrite <- app_assoc. reflexivity.
      * destruct H as [before [bad [after [recs [-> [Hg [Hb ->]]]]]]].
        exists (row :: before), bad, after, (r :: recs). repeat split.
        -- constructor; assumption.
        -- assumption.
        -- rewrite <- app_assoc. reflexivity.
    + inversion H; subst. exists [], row, rows, []. repeat split.
      * constructor.
      * assumption.
      * now rewrite app_nil_r.
Qed.

(** The first records of the result are those the loop started from. *)
Lemma for_rows_keeps rows records :
  exists recs, fst (for_rows rows records) = records ++ recs.
Proof.
  destruct (for_rows rows records) as [records' o] eqn:H.
  apply for_rows_inv in H. destruct o.
  - destruct H as [recs [_ ->]]. now exists recs.
  - destruct H as [_ [_ [_ [recs [_ [_ [_ ->]]]]]]]. now exists recs.
Qed.

End RowFacts.

(** ** Fetching and pages *)

Section PageFacts.

Variable src : source_file.
Variable E : env.

Lemma fetch_once_eq url w :
  fetch_once src E url w =
  (urlopen E (asked w) (request_of src url) 10, requested url w).
Proof.
  unfold fetch_once, bind, ask, emit, requested. simpl.
  destruct (urlopen E (asked w) (request_of src url) 10); reflexivity.
Qed.

Lemma fetch_page_served url w html :
  urlopen E (asked w) (request_of src url) 10 = Returned html ->
  fetch_page src E url w = (Returned html, requested url w).
Proof.
  intros H. unfold fetch_page. simpl. unfold try_except.
  rewrite fetch_once_eq, H. reflexivity.
Qed.

Lemma for_rows_app_stops before bad after records e :
  row_record bad = Raised e ->
  exists e', for_rows (before ++ bad :: after) records
             = (fst (for_rows before records), Raised e').
Proof.
  intros Hbad. revert records.
  induction before as [|row before IH]; intros records; simpl.
  - rewrite Hbad. now exists e.
  - destruct (row_record row) as [r|e0]; [apply IH | now exists e0].
Qed.

End PageFacts.

(** C5. For every raw penalty cell [t]: the cell is first trimmed of the
    white space around it, so that a cell of white space alone gives
    [0.0]; the penalty text is the trimmed cell without its [$] and [,]
    characters, every other character kept in place; an empty penalty
    text gives [0.0]; a penalty text that is not empty is handed to
    [float], and when [float] does not accept it the row raises
    [ValueError], which ends the page at that row (the records collected
    so far are kept) and lets the loop go on with the pages that
    remain. *)
Theorem penalty_normalization (t : text) :
  trimmed_of t (strip t)
  /\ penalty_text_of t = filter (fun x => negb (is_currency_mark x)) (strip t)
  /\ (forallb isspace t = true -> penalty_amount_of t = Returned (S754_zero false))
  /\ (penalty_text_of t = [] -> penalty_amount_of t = Returned (S754_zero false))
  /\ (penalty_text_of t <> [] ->
      penalty_amount_of t = py_float (penalty_text_of t)
      /\ ((forall v, py_float (penalty_text_of t) <> Returned v) ->
          penalty_amount_of t = Raised ValueError
          /\ forall src E page rest records w before cols after,
               nth_error cols 6 = Some t ->
               (forall n, urlopen E n (request_of src (page_url page)) 10
                          = Returned (page_of (before ++ cols :: after))) ->
               row_record cols = Raised ValueError
               /\ exists w',
                    for_pages src E (page :: rest) records w
                    = for_pages src E rest (fst (for_rows before records)) w')).
Proof.
  split; [apply strip_trimmed|].
  split; [apply penalty_text_filter|]. split; [|split].
  - intros H. unfold penalty_amount_of. rewrite penalty_text_filter.
    rewrite (strip_blank t H). reflexivity.
  - intros H. unfold penalty_amount_of. rewrite H. reflexivity.
  - intros Hne.
    assert (Hpa : penalty_amount_of t = py_float (penalty_text_of t)).
    { unfold penalty_amount_of. destruct (penalty_text_of t); [congruence | reflexivity]. }
    split; [exact Hpa|]. intros Hnum.
    assert (Hraise : penalty_amount_of t = Raised ValueError).
    { rewrite Hpa. destruct (py_float (penalty_text_of t)) as [v|e] eqn:Hf.
      - exfalso. exact (Hnum v eq_refl).
      - apply py_float_raises in Hf. now subst. }
    split; [exact Hraise|].
    intros src E page rest records w before cols after Hcell Hnet.
    assert (Hrow : row_record cols = Raised ValueError).
    { unfold row_record, cell. rewrite Hcell. simpl. rewrite Hraise. reflexivity. }
    split; [exact Hrow|].
    destruct (for_rows_app_stops before cols after records ValueError Hrow) as [e' Hstop].
    simpl. unfold scrape_page, try_page.
    rewrite (fetch_page_served src E (page_url page) _ _ (Hnet _)). simpl.
    rewrite Hstop. simpl. eexists. reflexivity.
Qed.

(** Instances: a cell of white space; the cell ["$ten"] in the second
    row of page 1; and a cell that [str.strip] leaves alone but whose
    penalty text starts with a separator [float] does not skip. *)
Lemma penalty_normalization_witness :
  penalty_amount_of (txt "  ") = Returned (S754_zero false)
  /\ penalty_amount_of ["$"; "031"; "5"]%char = Raised ValueError
  /\ penalty_amount_of (txt "$ten") = Raised ValueError
  /\ exists w',
       for_pages main_py Sample.page1_unpriced [1; 2; 3]%nat [] Sample.start
       = for_pages main_py Sample.page1_unpriced [2; 3]%nat [Sample.acme] w'.
Proof.
  split.
  { destruct (penalty_normalization (txt "  ")) as [_ [_ [H _]]].
    apply H. reflexivity. }
  split.
  { destruct (penalty_normalization ["$"; "031"; "5"]%char) as [_ [_ [_ [_ H]]]].
    destruct H as [_ H]; [vm_compute; discriminate|].
    destruct H as [H _]; [intros v; vm_compute; discriminate | exact H]. }
  destruct (penalty_normalization (txt "$ten")) as [_ [_ [_ [_ H]]]].
  destruct H as [_ H]; [vm_compute; discriminate|].
  destruct H as [H1 H2].
  { intros v. vm_compute. discriminate. }
  split; [exact H1|].
  destruct (H2 main_py Sample.page1_unpriced 1%nat [2; 3]%nat [] Sample.start
              [Sample.acme_row] Sample.unpriced_row [])
    as [_ [w' Hw]].
  - reflexivity.
  - intros n. reflexivity.
  - exists w'. exact Hw.
Defined.

(** C8. A row of seven cells (or more) whose year and penalty parse is
    accepted whatever its text cells hold, and in its record every text
    field is the cell without the white space around it; an optional
    field ([current_parent], [current_parent_industry]) that is empty
    after trimming is [None], a required one ([company],
    [primary_offense_type], [agency]) stays the empty string. *)
Theorem text_fields_normalization
    (c0 c1 c2 c3 c4 c5 c6 : text) (more : list text) (y : Z) (a : pyfloat) :
  py_int (strip c4) = Returned y ->
  penalty_amount_of c6 = Returned a ->
  exists r,
    row_record (c0 :: c1 :: c2 :: c3 :: c4 :: c5 :: c6 :: more) = Returned r
    /\ company r = strip c0 /\ trimmed_of c0 (company r)
    /\ primary_offense_type r = strip c3 /\ trimmed_of c3 (primary_offense_type r)
    /\ agency r = strip c5 /\ trimmed_of c5 (agency r)
    /\ (strip c1 = [] -> current_parent r = None)
    /\ (strip c1 <> [] ->
        current_parent r = Some (strip c1) /\ trimmed_of c1 (strip c1))
    /\ (strip c2 = [] -> current_parent_industry r = None)
    /\ (strip c2 <> [] ->
        current_parent_industry r = Some (strip c2) /\ trimmed_of c2 (strip c2))
    /\ year r = y /\ penalty_amount r = a.
Proof.
  intros Hy Ha. eexists. split.
  - unfold row_record, cell. simpl. rewrite Ha. simpl. rewrite Hy. simpl.
    reflexivity.
  - simpl. repeat split; try apply strip_trimmed.
    + intros ->. reflexivity.
    + destruct (strip c1); [congruence | reflexivity].
    + intros ->. reflexivity.
    + destruct (strip c2); [congruence | reflexivity].
Qed.

(** An instance: a row with white space around its cells, a parent, no
    parent industry and no penalty. *)
Lemma text_fields_normalization_witness :
  py_int (strip (txt " 2021")) = Returned 2021%Z
  /\ penalty_amount_of (txt "") = Returned float_zero
  /\ exists r,
       row_record Sample.bolt_row = Returned r
       /\ company r = txt "Bolt LLC"
       /\ current_parent r = Some (txt "Bolt Group")
       /\ current_parent_industry r = None.
Proof.
  split; [reflexivity|]. split; [reflexivity|].
  destruct (text_fields_normalization
              (txt "  Bolt LLC ") (txt " Bolt Group ") (txt "")
              (txt "Wage theft") (txt " 2021") (txt "DOL ") (txt "") []
              2021 float_zero eq_refl eq_refl)
    as [r [Hr [Hc [_ [_ [_ [_ [_ [_ [Hp [Hi _]]]]]]]]]]].
  exists r. split; [exact Hr|]. split; [exact Hc|]. split.
  - apply Hp. vm_compute. discriminate.
  - apply Hi. reflexivity.
Defined.

(** ** The sign of a parsed float *)

Section FloatSign.

Local Open Scope Z_scope.











Lemma text_eqb_eq a b : text_eqb a b = true -> a = b.
Proof. unfold text_eqb. destruct (list_eq_dec ascii_dec a b); [auto | discriminate]. Qed.

(** A white-space character is no part of a numeral. *)
Lemma space_plain c :
  isspace c = true ->
  Ascii.eqb c "_" = false /\ Ascii.eqb c "-" = false /\ Ascii.eqb c "+" = false
  /\ isdigit c = false /\ Ascii.eqb c "." = false
  /\ lower c <> "i"%char /\ lower c <> "n"%char.
Proof.
  destruct c as [[] [] [] [] [] [] [] []]; vm_compute; intros H;
    try discriminate H; repeat split; discriminate.
Qed.

(** What [float] accepts starts, white space of numerals aside, with a
    character that is no white space of [str.strip]. *)
Lemma py_float_head s v :
  py_float s = Returned v ->
  exists c rest, numeral_of s = c :: rest /\ isspace c = false.
Proof.
  unfold py_float. destruct (numeral_of s) as [|c rest].
  - vm_compute. discriminate.
  - destruct (isspace c) eqn:Hc; [|eauto].
    destruct (space_plain c Hc) as (Hu & Hm & Hp & Hd & Hdot & Hi & Hn).
    cbn [underscores_ok]. rewrite Hu.
    destruct (underscores_ok (isdigit c) rest); cbn [negb]; [|discriminate].
    unfold drop_underscores. cbn [filter]. rewrite Hu. cbn [negb split_sign].
    rewrite Hm, Hp. cbn [map].
    destruct (text_eqb _ (txt "inf")) eqn:E1;
      [apply text_eqb_eq in E1; inversion E1; congruence|].
    destruct (text_eqb _ (txt "infinity")) eqn:E2;
      [apply text_eqb_eq in E2; inversion E2; congruence|].
    destruct (text_eqb _ (txt "nan")) eqn:E3;
      [apply text_eqb_eq in E3; inversion E3; congruence|].
    cbn [orb]. unfold floatnumber. cbn [span_digits]. rewrite Hd, Hdot.
    cbn [app]. discriminate.
Qed.


(** [float] of white space alone. *)
Lemma py_float_blank s :
  forallb isspace s = true -> py_float s = Raised ValueError.
Proof.
  intros H. destruct (py_float s) as [v|e] eqn:Hf.
  - destruct (py_float_head s v Hf) as [c [rest [Hn Hc]]].
    pose proof (numeral_of_part isspace s H) as Hp. rewrite Hn in Hp.
    simpl in Hp. rewrite Hc in Hp. discriminate.
  - f_equal. eapply py_float_raises, Hf.
Qed.

End FloatSign.




(** ** The retry policy of fetch_page *)

Section RetryFacts.

Variable src : source_file.
Variable E : env.

Lemma retrying_eq fuel n url w :
  retrying src E fuel n url w =
  match urlopen E (asked w) (request_of src url) 10 with
  | Returned d => (Returned d, requested url w)
  | Raised e =>
      if negb (retry_if_HTTPError e) then (Raised e, requested url w)
      else if stop_after_attempt 3 n then (Raised (RetryError e), requested url w)
      else match fuel with
           | O => (Raised (RetryError e), requested url w)
           | S fuel' => retrying src E fuel' (S n) url (backed_off n (requested url w))
           end
  end.
Proof.
  destruct fuel; cbn [retrying]; unfold try_except; rewrite fetch_once_eq;
    destruct (urlopen E (asked w) (request_of src url) 10) as [d|e]; try reflexivity;
    destruct (negb (retry_if_HTTPError e)); try reflexivity;
    destruct (stop_after_attempt 3 n); reflexivity.
Qed.

(** The stop condition comes before the fuel runs out: any fuel that
    covers the attempts left gives the same call. *)
Lemma retrying_fuel url : forall fuel fuel' n w,
  (3 <= fuel + n)%nat -> (3 <= fuel' + n)%nat ->
  retrying src E fuel n url w = retrying src E fuel' n url w.
Proof.
  induction fuel as [|fuel IH]; intros fuel' n w H H';
    rewrite (retrying_eq _ n), (retrying_eq fuel' n);
    destruct (urlopen E (asked w) (request_of src url) 10) as [d|e]; try reflexivity;
    destruct (negb (retry_if_HTTPError e)); try reflexivity;
    unfold stop_after_attempt; destruct (Nat.leb_spec 3 n); try reflexivity.
  - lia.
  - destruct fuel' as [|fuel']; [lia|]. apply IH; lia.
Qed.

End RetryFacts.

(** C7, as the code has it. A call of [fetch_page] makes between one and
    three requests. A request is followed by another only when it failed
    with [HTTPError]; any other exception is raised at once, as it is.
    Between two requests come the log line with the number of the failed
    attempt and then the wait, [2 ** (attempt_number - 1)] kept between 2
    and 10, which is 2 time units after the first attempt and 2 after the
    second. When the third request fails with [HTTPError] too, the call
    raises [RetryError] around that error. *)
Theorem fetch_page_retry_policy
    (src : source_file) (E : env) (url : text) (w : world) :
  exists retries,
    (retries <= 2)%nat
    /\ trace (snd (fetch_page src E url w))
       = trace w ++ Request url :: flat_map (retry_events url) (seq 1 retries)
    /\ asked (snd (fetch_page src E url w)) = (asked w + S retries)%nat
    /\ (forall k, (k < retries)%nat ->
          exists status,
            urlopen E (asked w + k) (request_of src url) 10
            = Raised (HTTPError status))
    /\ match urlopen E (asked w + retries) (request_of src url) 10 with
       | Returned html => fst (fetch_page src E url w) = Returned html
       | Raised e =>
           if retry_if_HTTPError e
           then retries = 2%nat
                /\ fst (fetch_page src E url w) = Raised (RetryError e)
           else fst (fetch_page src E url w) = Raised e
       end
    /\ (forall n, (1 <= n <= retries)%nat -> wait_exponential 1 2 10 n = 2%Z)
    /\ (forall n, wait_exponential 1 2 10 n
                  = Z.max 2 (Z.min (2 ^ (Z.of_nat n - 1)) 10)).
Proof.
  assert (Hw : forall n, (1 <= n <= 2)%nat -> wait_exponential 1 2 10 n = 2%Z).
  { intros n Hn. assert (n = 1 \/ n = 2)%nat as [->| ->] by lia; reflexivity. }
  assert (Hf : forall n, wait_exponential 1 2 10 n
                         = Z.max 2 (Z.min (2 ^ (Z.of_nat n - 1)) 10)).
  { intros n. unfold wait_exponential. rewrite Z.mul_1_l. reflexivity. }
  unfold fetch_page. rewrite retrying_eq.
  destruct (urlopen E (asked w) (request_of src url) 10) as [d1|e1] eqn:H1.
  { exists 0%nat. simpl. rewrite Nat.add_0_r, H1.
    repeat split; try lia; auto; intros; lia. }
  destruct (retry_if_HTTPError e1) eqn:R1; simpl negb; cbv iota.
  2:{ exists 0%nat. simpl. rewrite Nat.add_0_r, H1, R1.
      repeat split; try lia; auto; intros; lia. }
  change (stop_after_attempt 3 1) with false. cbv iota.
  rewrite retrying_eq.
  change (asked (backed_off 1 (requested url w))) with (S (asked w)).
  destruct (urlopen E (S (asked w)) (request_of src url) 10) as [d2|e2] eqn:H2.
  { exists 1%nat. simpl. rewrite Nat.add_1_r, H2, <- !app_assoc.
    repeat split; try lia; auto.
    - intros k Hk. assert (k = 0)%nat as -> by lia. rewrite Nat.add_0_r, H1.
      destruct e1; try discriminate. eauto.
    - intros; apply Hw; lia. }
  destruct (retry_if_HTTPError e2) eqn:R2; simpl negb; cbv iota.
  2:{ exists 1%nat. simpl. rewrite Nat.add_1_r, H2, R2, <- !app_assoc.
      repeat split; try lia; auto.
      - intros k Hk. assert (k = 0)%nat as -> by lia. rewrite Nat.add_0_r, H1.
        destruct e1; try discriminate. eauto.
      - intros; apply Hw; lia. }
  change (stop_after_attempt 3 2) with false. cbv iota.
  rewrite retrying_eq.
  change (asked (backed_off 2 (requested url (backed_off 1 (requested url w)))))
    with (S (S (asked w))).
  assert (Hk : forall k, (k < 2)%nat ->
            exists status,
              urlopen E (asked w + k) (request_of src url) 10
              = Raised (HTTPError status)).
  { intros k Hk. assert (k = 0 \/ k = 1)%nat as [->| ->] by lia.
    - rewrite Nat.add_0_r, H1. destruct e1; try discriminate. eauto.
    - rewrite Nat.add_1_r, H2. destruct e2; try discriminate. eauto. }
  exists 2%nat.
  replace (asked w + 2)%nat with (S (S (asked w))) by lia.
  destruct (urlopen E (S (S (asked w))) (request_of src url) 10) as [d3|e3] eqn:H3.
  { simpl. rewrite <- !app_assoc. repeat split; try lia; auto. }
  destruct (retry_if_HTTPError e3) eqn:R3; simpl negb; cbv iota.
  - change (stop_after_attempt 3 3) with true. cbv iota.
    simpl. rewrite <- !app_assoc. repeat split; try lia; auto.
  - simpl. rewrite <- !app_assoc. repeat split; try lia; auto.
Qed.

(** Three failed attempts: the two waits last 2 and 2 time units, where
    a delay doubled from 2 would last 2 and then 4. *)
Lemma waits_do_not_double :
  sleeps (trace (snd (fetch_page main_py Sample.always_503 (page_url 1)
                        Sample.start)))
  = [2; 2]%Z
  /\ retry_lines (trace (snd (fetch_page main_py Sample.always_503 (page_url 1)
                                Sample.start)))
     = [1; 2]%nat
  /\ map (doubling_backoff 2 10) [1; 2]%nat = [2; 4]%Z
  /\ fst (fetch_page main_py Sample.always_503 (page_url 1) Sample.start)
     = Raised (RetryError (HTTPError 503)).
Proof. vm_compute. repeat split. Qed.

(** ** The loop over the pages *)

Section ScrapeFacts.

Variable src : source_file.
Variable E : env.

(** A URL whose every request fails: the call of [fetch_page] fails. *)
Lemma fetch_page_fails url :
  (forall n, exists e, urlopen E n (request_of src url) 10 = Raised e) ->
  forall w, exists e, fst (fetch_page src E url w) = Raised e.
Proof.
  intros H. unfold fetch_page.
  assert (G : forall fuel n w, exists e, fst (retrying src E fuel n url w) = Raised e).
  { induction fuel as [|fuel IH]; intros n w; rewrite retrying_eq;
      destruct (H (asked w)) as [e ->];
      destruct (negb (retry_if_HTTPError e)); try (simpl; eauto; fail);
      destruct (stop_after_attempt 3 n); try (simpl; eauto; fail).
    all: try apply IH. }
  apply G.
Qed.

Lemma fetch_page_serves url html :
  (forall n, urlopen E n (request_of src url) 10 = Returned html) ->
  forall w, fst (fetch_page src E url w) = Returned html.
Proof. intros H w. rewrite (fetch_page_served src E url w html (H _)). reflexivity. Qed.

(** A page that is fetched and whose rows all give records adds them. *)
Lemma scrape_page_adds page records w rows recs :
  fst (fetch_page src E (page_url page) (snd (sleep 10 w))) = Returned (page_of rows) ->
  rows_give rows recs ->
  fst (scrape_page src E page records w) = records ++ recs.
Proof.
  intros Hf Hr. unfold scrape_page, try_page.
  destruct (fetch_page src E (page_url page) (snd (sleep 10 w))) as [o w1].
  simpl in Hf. subst o. simpl.
  rewrite (for_rows_give rows recs records Hr). reflexivity.
Qed.

(** A page whose fetch fails adds nothing. *)
Lemma scrape_page_unfetched page records w e :
  fst (fetch_page src E (page_url page) (snd (sleep 10 w))) = Raised e ->
  fst (scrape_page src E page records w) = records.
Proof.
  intros Hf. unfold scrape_page, try_page.
  destruct (fetch_page src E (page_url page) (snd (sleep 10 w))) as [o w1].
  simpl in Hf. subst o. reflexivity.
Qed.

(** The records a page turn starts from are kept. *)
Lemma scrape_page_keeps page records w :
  exists more, fst (scrape_page src E page records w) = records ++ more.
Proof.
  unfold scrape_page, try_page.
  destruct (fetch_page src E (page_url page) (snd (sleep 10 w))) as [[html|e] w1].
  - destruct (views_table html) as [table|].
    + destruct (tbody table) as [rows|].
      * destruct (for_rows_keeps rows records) as [more Hm].
        destruct (for_rows rows records) as [records' [[]|e]]; simpl in *;
          exists more; exact Hm.
      * exists []. simpl. now rewrite app_nil_r.
    + exists []. simpl. now rewrite app_nil_r.
  - exists []. simpl. now rewrite app_nil_r.
Qed.

Lemma for_pages_keeps ps : forall records w,
  exists more, fst (for_pages src E ps records w) = records ++ more.
Proof.
  induction ps as [|p ps IH]; intros records w; simpl.
  - exists []. now rewrite app_nil_r.
  - destruct (scrape_page_keeps p records w) as [m1 H1].
    destruct (scrape_page src E p records w) as [records' w']. simpl in H1. subst.
    destruct (IH (records ++ m1) w') as [m2 H2].
    exists (m1 ++ m2). rewrite H2, app_assoc. reflexivity.
Qed.

(** The run over the pages never raises. *)
Lemma scrape_returns w :
  exists records, fst (scrape_violation_tracker src E w) = Returned records.
Proof.
  unfold scrape_violation_tracker.
  destruct (for_pages src E pages [] w) as [records w']. now exists records.
Qed.

End ScrapeFacts.

(** C3. In a run over the three pages where the fetch of page 2 always
    fails and pages 1 and 3 are fetched and all their rows give records,
    the run returns (it does not raise) the records of page 1 followed by
    the records of page 3, each page's records in the order of its rows. *)
Theorem page_failure_isolation
    (src : source_file) (E : env) (w : world)
    (rows1 rows3 : list (list text)) (recs1 recs3 : list record) :
  (forall w', fst (fetch_page src E (page_url 1) w') = Returned (page_of rows1)) ->
  (forall w', exists e, fst (fetch_page src E (page_url 2) w') = Raised e) ->
  (forall w', fst (fetch_page src E (page_url 3) w') = Returned (page_of rows3)) ->
  rows_give rows1 recs1 ->
  rows_give rows3 recs3 ->
  fst (scrape_violation_tracker src E w) = Returned (recs1 ++ recs3).
Proof.
  intros H1 H2 H3 R1 R3.
  unfold scrape_violation_tracker, pages. simpl seq. simpl for_pages.
  pose proof (scrape_page_adds src E 1 [] w rows1 recs1 (H1 _) R1) as P1.
  destruct (scrape_page src E 1 [] w) as [r1 w1]. simpl in P1. subst r1.
  destruct (H2 (snd (sleep 10 w1))) as [e He].
  pose proof (scrape_page_unfetched src E 2 recs1 w1 e He) as P2.
  destruct (scrape_page src E 2 recs1 w1) as [r2 w2]. simpl in P2. subst r2.
  pose proof (scrape_page_adds src E 3 recs1 w2 rows3 recs3 (H3 _) R3) as P3.
  destruct (scrape_page src E 3 recs1 w2) as [r3 w3]. simpl in P3. subst r3.
  reflexivity.
Qed.

(** An instance: page 2 answers 503 to every request. *)
Lemma page_failure_isolation_witness :
  fst (scrape_violation_tracker scraper_py Sample.page2_down Sample.start)
  = Returned [Sample.acme; Sample.bolt].
Proof.
  apply (page_failure_isolation scraper_py Sample.page2_down Sample.start
           [Sample.acme_row] [Sample.bolt_row] [Sample.acme] [Sample.bolt]).
  - apply fetch_page_serves. intros n. reflexivity.
  - apply fetch_page_fails. intros n. eexists. reflexivity.
  - apply fetch_page_serves. intros n. reflexivity.
  - repeat constructor.
  - repeat constructor.
Defined.

(** C4, as the code has it. When the [try] block of a page raises, the
    page has added nothing if the fetch raised or the table has no body;
    if a row raised, the page has added the records of the rows before
    that row, and none of that row or of the rows after it. What the page
    has added by then is what the page turn leaves in the list. *)
Theorem failing_page_contribution
    (src : source_file) (E : env) (page : nat) (records : list record)
    (w : world) (records' : list record) (e : exn) :
  fst (try_page src E page records (snd (sleep 10 w))) = (records', Raised e) ->
  fst (scrape_page src E page records w) = records'
  /\ ((fst (fetch_page src E (page_url page) (snd (sleep 10 w))) = Raised e
       /\ records' = records)
      \/ (exists table,
            fst (fetch_page src E (page_url page) (snd (sleep 10 w)))
            = Returned {| views_table := Some table |}
            /\ tbody table = None /\ e = AttributeError /\ records' = records)
      \/ (exists before bad after recs,
            fst (fetch_page src E (page_url page) (snd (sleep 10 w)))
            = Returned (page_of (before ++ bad :: after))
            /\ rows_give before recs
            /\ row_record bad = Raised e
            /\ records' = records ++ recs)).
Proof.
  intros H. split.
  - unfold scrape_page.
    destruct (try_page src E page records (snd (sleep 10 w))) as [[r o] w1].
    simpl in H. inversion H; subst. reflexivity.
  - unfold try_page in H.
    destruct (fetch_page src E (page_url page) (snd (sleep 10 w))) as [[html|e0] w1].
    + destruct html as [[[[rows|]]|]]; simpl in H.
      * destruct (for_rows rows records) as [r o] eqn:Hr.
        apply for_rows_inv in Hr. destruct o as [[]|e0]; simpl in H; [discriminate|].
        inversion H; subst.
        destruct Hr as [before [bad [after [recs [-> [Hg [Hb ->]]]]]]].
        right. right. exists before, bad, after, recs. repeat split; assumption.
      * inversion H; subst. right. left.
        exists {| tbody := None |}. repeat split.
      * discriminate.
    + simpl in H. inversion H; subst. left. split; reflexivity.
Qed.

(** An instance: the second of three rows has no year. *)
Lemma failing_page_contribution_witness :
  fst (scrape_page main_py Sample.page1_breaks 1 [] Sample.start) = [Sample.acme].
Proof.
  apply (failing_page_contribution main_py Sample.page1_breaks 1 []
           Sample.start [Sample.acme] ValueError).
  reflexivity.
Defined.

(** Page 1 raises at its second row, and the record of its first row is
    in what the run returns. *)
Lemma partial_page_is_kept :
  fst (try_page main_py Sample.page1_breaks 1 [] (snd (sleep 10 Sample.start)))
  = ([Sample.acme], Raised ValueError)
  /\ row_record Sample.acme_row = Returned Sample.acme
  /\ fst (scrape_violation_tracker main_py Sample.page1_breaks Sample.start)
     = Returned [Sample.acme]
  /\ fst (scrape_violation_tracker scraper_py Sample.page1_breaks Sample.start)
     = Returned [Sample.acme].
Proof. vm_compute. repeat split. Qed.

(** ** The store *)

Section StoreFacts.

Lemma text_eqb_refl (a : text) : text_eqb a a = true.
Proof. unfold text_eqb. destruct (list_eq_dec ascii_dec a a); congruence. Qed.

Lemma float_same_refl (x : pyfloat) : float_same x x = true.
Proof.
  destruct x as [s|s| |s m e]; try reflexivity.
  - destruct s; reflexivity.
  - unfold float_same, SFeqb, SFcompare.
    rewrite Z.compare_refl, Pos.compare_cont_refl. destruct s; reflexivity.
Qed.

Lemma same_key_refl (r : record) : same_key r r = true.
Proof.
  unfold same_key.
  rewrite !text_eqb_refl, Z.eqb_refl, float_same_refl. reflexivity.
Qed.

(** Whether a row clashes with a stored one is decided by its key. *)
Lemma same_key_by_key (a b x : record) :
  unique_key a = unique_key b -> same_key a x = same_key b x.
Proof.
  unfold unique_key, same_key. intros H. inversion H. congruence.
Qed.

Lemma clashes_with_stored (r x : record) (rows : list record) :
  In x rows -> unique_key r = unique_key x -> existsb (same_key r) rows = true.
Proof.
  intros Hin Hk. apply existsb_exists. exists x. split; [exact Hin|].
  rewrite (same_key_by_key r x x Hk). apply same_key_refl.
Qed.

Variable src : source_file.

Lemma insert_ignore_skipped r rows :
  skipped src r rows = true -> insert_ignore src r rows = rows.
Proof. unfold insert_ignore, skipped. intros ->. reflexivity. Qed.

Lemma insert_ignore_added r rows :
  skipped src r rows = false -> insert_ignore src r rows = rows ++ [r].
Proof. unfold insert_ignore, skipped. intros ->. reflexivity. Qed.

Lemma insert_ignore_clash r rows :
  existsb (same_key r) rows = true -> insert_ignore src r rows = rows.
Proof.
  intros H. apply insert_ignore_skipped. unfold skipped.
  rewrite H. apply orb_true_r.
Qed.

Lemma insert_ignore_clash_free r rows :
  clash_free rows -> clash_free (insert_ignore src r rows).
Proof.
  intros H. unfold insert_ignore.
  destruct (not_null_fails src r); [exact H|]. cbn [orb].
  destruct (existsb (same_key r) rows) eqn:Hc; [exact H|].
  constructor; assumption.
Qed.

Lemma clash_free_NoDup rows :
  clash_free rows -> NoDup (map unique_key rows).
Proof.
  induction 1 as [|rows r _ IH Hc]; [constructor|].
  rewrite map_app. simpl map.
  apply NoDup_app; [exact IH | constructor; [intros [] | constructor] |].
  intros k Hk [Hr|[]]. subst k.
  apply in_map_iff in Hk. destruct Hk as [x [Hx Hin]].
  rewrite (clashes_with_stored r x rows Hin (eq_sym Hx)) in Hc. discriminate.
Qed.

Lemma reachable_clash_free d :
  reachable src d -> clash_free (committed d) /\ clash_free (working d).
Proof.
  induction 1 as [|f d Hop _ [IHc IHw]]; [split; constructor|].
  destruct Hop; simpl; repeat split; try assumption.
  apply insert_ignore_clash_free, IHw.
Qed.

Lemma insert_ignore_keeps (f : record -> bool) r rows :
  existsb f rows = true -> existsb f (insert_ignore src r rows) = true.
Proof.
  intros H. unfold insert_ignore. destruct (_ || _); [exact H|].
  rewrite existsb_app, H. reflexivity.
Qed.

(** After its insert a record is skipped. *)
Lemma insert_ignore_stores r rows :
  skipped src r (insert_ignore src r rows) = true.
Proof.
  unfold insert_ignore, skipped. destruct (not_null_fails src r); [reflexivity|].
  cbn [orb]. destruct (existsb (same_key r) rows) eqn:H; [exact H|].
  rewrite existsb_app. simpl. rewrite same_key_refl, orb_true_r. reflexivity.
Qed.

Lemma skipped_keeps r r' rows :
  skipped src r rows = true -> skipped src r (insert_ignore src r' rows) = true.
Proof.
  unfold skipped. destruct (not_null_fails src r); [reflexivity|]. cbn [orb].
  apply insert_ignore_keeps.
Qed.

Lemma inserted_keeps (f : record -> bool) records : forall rows,
  existsb f rows = true -> existsb f (inserted src records rows) = true.
Proof.
  induction records as [|r records IH]; intros rows H; simpl; [exact H|].
  apply IH, insert_ignore_keeps, H.
Qed.

Lemma inserted_skipped r records : forall rows,
  skipped src r rows = true -> skipped src r (inserted src records rows) = true.
Proof.
  induction records as [|r0 records IH]; intros rows H; simpl; [exact H|].
  apply IH, skipped_keeps, H.
Qed.

(** After the inserts of a batch every record of the batch is skipped. *)
Lemma inserted_stores records : forall rows r,
  In r records -> skipped src r (inserted src records rows) = true.
Proof.
  induction records as [|r0 records IH]; intros rows r Hin; [destruct Hin|].
  destruct Hin as [->|Hin]; simpl.
  - apply inserted_skipped, insert_ignore_stores.
  - apply IH, Hin.
Qed.

Lemma inserted_noop records : forall rows,
  (forall r, In r records -> skipped src r rows = true) ->
  inserted src records rows = rows.
Proof.
  induction records as [|r records IH]; intros rows H; simpl; [reflexivity|].
  rewrite (insert_ignore_skipped r rows (H r (or_introl eq_refl))).
  apply IH. intros r' Hr'. apply H. right. exact Hr'.
Qed.

Variable E : env.

Lemma db_call_eq (f : database -> database) w :
  db_call E f w =
  match db_fault E (asked w) with
  | Some e => (Raised e, {| trace := trace w; asked := S (asked w);
                            db := db w; sink := sink w |})
  | None => (Returned tt, {| trace := trace w; asked := S (asked w);
                             db := f (db w); sink := sink w |})
  end.
Proof.
  unfold db_call, bind, ask, get_db, set_db, raise. simpl.
  destruct (db_fault E (asked w)); reflexivity.
Qed.

(** The loop over the records, when it returns: the rows of the
    connection are those after the inserts. *)
Lemma for_records_returned records : forall w w',
  for_records src E records w = (Returned tt, w') ->
  committed (db w') = committed (db w)
  /\ working (db w') = inserted src records (working (db w)).
Proof.
  induction records as [|r records IH]; intros w w' H; simpl in H.
  - inversion H; subst. split; reflexivity.
  - unfold bind, execute_insert in H. rewrite db_call_eq in H.
    destruct (db_fault E (asked w)); [discriminate|].
    apply IH in H. simpl in H. exact H.
Qed.

(** The loop over the records, however it ends: when every record
    is skipped, the database is as before. *)
Lemma for_records_noop records : forall w,
  (forall r, In r records -> skipped src r (working (db w)) = true) ->
  db (snd (for_records src E records w)) = db w.
Proof.
  induction records as [|r records IH]; intros w H; simpl; [reflexivity|].
  unfold bind, execute_insert. rewrite db_call_eq.
  destruct (db_fault E (asked w)); [reflexivity|].
  assert (Hd : {| committed := committed (db w);
                  working := insert_ignore src r (working (db w)) |} = db w).
  { rewrite (insert_ignore_skipped r _ (H r (or_introl eq_refl))).
    destruct (db w); reflexivity. }
  cbv beta. rewrite Hd. rewrite IH; [reflexivity|].
  simpl. intros r' Hr'. apply H. right. exact Hr'.
Qed.

Lemma logging_database_errors_returned {A} msg (m : M A) w a w' :
  logging_database_errors msg m w = (Returned a, w') -> m w = (Returned a, w').
Proof.
  unfold logging_database_errors, try_except.
  destruct (m w) as [[a0|e] w1]; [auto|].
  destruct (is_database_error e); unfold bind, logger, emit, raise; simpl;
    discriminate.
Qed.

Lemma logging_database_errors_db {A} msg (m : M A) w :
  db (snd (logging_database_errors msg m w)) = db (snd (m w)).
Proof.
  unfold logging_database_errors, try_except.
  destruct (m w) as [[a0|e] w1]; [reflexivity|].
  destruct (is_database_error e); reflexivity.
Qed.

(** [store_records], when it returns: the batch is inserted and
    committed. *)
Lemma store_records_returned records w w' :
  store_records src E records w = (Returned tt, w') ->
  committed (db w') = inserted src records (working (db w))
  /\ working (db w') = inserted src records (working (db w)).
Proof.
  intros H. apply logging_database_errors_returned in H.
  unfold bind, cursor, commit in H. rewrite db_call_eq in H.
  destruct (db_fault E (asked w)); [discriminate|].
  destruct (for_records src E records _) as [[[]|e] w1] eqn:Hf; [|discriminate].
  apply for_records_returned in Hf. simpl in Hf. destruct Hf as [_ Hw].
  rewrite db_call_eq in H. destruct (db_fault E (asked w1)); [discriminate|].
  unfold logger, emit in H. inversion H; subst. simpl. rewrite Hw. split; reflexivity.
Qed.

(** [store_records], however it ends: when the transaction is empty and
    every record is skipped, the database is as before. *)
Lemma store_records_noop records w :
  committed (db w) = working (db w) ->
  (forall r, In r records -> skipped src r (working (db w)) = true) ->
  db (snd (store_records src E records w)) = db w.
Proof.
  intros Hc H. unfold store_records. rewrite logging_database_errors_db.
  unfold bind, cursor, commit. rewrite db_call_eq.
  destruct (db_fault E (asked w)); [reflexivity|].
  set (w0 := {| trace := trace w; asked := S (asked w); db := db w; sink := sink w |}).
  pose proof (for_records_noop records w0 H) as Hn.
  destruct (for_records src E records w0) as [[[]|e] w1]; simpl in Hn; [|exact Hn].
  rewrite db_call_eq. destruct (db_fault E (asked w1)); simpl; [exact Hn|].
  rewrite Hn. subst w0. simpl. clear Hn H.
  destruct (db w) as [c k]. simpl in Hc. subst c. reflexivity.
Qed.

(** Without a fault of the database [store_records] returns. *)
Lemma for_records_faultless records :
  (forall n, db_fault E n = None) ->
  forall w, exists w', for_records src E records w = (Returned tt, w').
Proof.
  intros Hf. induction records as [|r records IH]; intros w; simpl.
  - eexists. reflexivity.
  - unfold bind, execute_insert. rewrite db_call_eq, Hf. apply IH.
Qed.

Lemma store_records_faultless records w :
  (forall n, db_fault E n = None) ->
  exists w', store_records src E records w = (Returned tt, w').
Proof.
  intros Hf. unfold store_records, logging_database_errors, try_except, bind,
    cursor, commit.
  rewrite db_call_eq, Hf.
  destruct (for_records_faultless records Hf
              {| trace := trace w; asked := S (asked w); db := db w; sink := sink w |})
    as [w1 H1].
  rewrite H1, db_call_eq, Hf. unfold logger, emit. eexists. reflexivity.
Qed.

End StoreFacts.

(** C1. In every reachable state of the table no two rows, committed or
    of the open transaction, have the same (company, year, agency,
    penalty_amount); and an [INSERT IGNORE] of a record whose four values
    are those of a stored row, whatever its other fields, returns without
    raising and leaves the database as it is, as does [store_records] on
    that record. *)
Theorem unique_key_insert_if_absent (src : source_file) (d : database) :
  reachable src d ->
  NoDup (map unique_key (committed d))
  /\ NoDup (map unique_key (working d))
  /\ forall r x,
       In x (working d) -> unique_key r = unique_key x ->
       insert_ignore src r (working d) = working d
       /\ forall E w,
            db w = d ->
            (db_fault E (asked w) = None ->
             fst (execute_insert src E r w) = Returned tt
             /\ db (snd (execute_insert src E r w)) = d)
            /\ ((forall n, db_fault E n = None) ->
                fst (store_records src E [r] w) = Returned tt
                /\ working (db (snd (store_records src E [r] w))) = working d
                /\ committed (db (snd (store_records src E [r] w))) = working d).
Proof.
  intros Hreach. destruct (reachable_clash_free src d Hreach) as [Hc Hw].
  split; [apply clash_free_NoDup, Hc|]. split; [apply clash_free_NoDup, Hw|].
  intros r x Hin Hk.
  pose proof (clashes_with_stored r x _ Hin Hk) as Hclash.
  pose proof (insert_ignore_clash src r _ Hclash) as Hins.
  split; [exact Hins|]. intros E w Hd. subst d. split.
  - intros Hf. unfold execute_insert. rewrite db_call_eq, Hf. simpl.
    rewrite Hins. split; [reflexivity | destruct (db w); reflexivity].
  - intros Hf. destruct (store_records_faultless src E [r] w Hf) as [w' Hs].
    rewrite Hs. destruct (store_records_returned src E [r] w w' Hs) as [Hc' Hw'].
    simpl in Hc', Hw'. rewrite Hins in Hc', Hw'. repeat split; assumption.
Qed.

(** An instance: the table holds the Acme violation, and the same
    violation comes again under a parent company. *)
Lemma unique_key_insert_if_absent_witness :
  insert_ignore main_py Sample.acme_with_parent [Sample.acme] = [Sample.acme].
Proof.
  assert (Hr : reachable main_py {| committed := []; working := [Sample.acme] |}).
  { exact (reach_step (op_insert main_py Sample.acme) (reach_empty main_py)). }
  destruct (unique_key_insert_if_absent main_py _ Hr) as [_ [_ H]].
  apply (H Sample.acme_with_parent Sample.acme).
  - left. reflexivity.
  - reflexivity.
Defined.

(** C2. When [store_records] has returned for a list of records, calling
    it again with the same list, however the second call ends, leaves the
    database as the first call left it: no row is added, none is changed,
    and the number of rows is the same. *)
Theorem store_records_idempotent
    (src : source_file) (E : env) (records : list record) (w w1 : world) :
  store_records src E records w = (Returned tt, w1) ->
  db (snd (store_records src E records w1)) = db w1
  /\ List.length (working (db (snd (store_records src E records w1))))
     = List.length (working (db w1))
  /\ List.length (committed (db (snd (store_records src E records w1))))
     = List.length (committed (db w1)).
Proof.
  intros H. apply store_records_returned in H. destruct H as [Hc Hw].
  assert (Hn : db (snd (store_records src E records w1)) = db w1).
  { apply store_records_noop.
    - rewrite Hc, Hw. reflexivity.
    - intros r Hr. rewrite Hw. apply inserted_stores, Hr. }
  rewrite Hn. repeat split.
Qed.

(** An instance: a batch with the same violation twice, stored into the
    empty table. *)
Lemma store_records_idempotent_witness :
  db (snd (store_records main_py Sample.nothing_found
             [Sample.acme; Sample.bolt; Sample.acme_with_parent]
             (snd (store_records main_py Sample.nothing_found
                     [Sample.acme; Sample.bolt; Sample.acme_with_parent]
                     Sample.start))))
  = {| committed := [Sample.acme; Sample.bolt];
       working := [Sample.acme; Sample.bolt] |}.
Proof.
  refine (eq_trans
            (proj1 (store_records_idempotent main_py Sample.nothing_found
                      [Sample.acme; Sample.bolt; Sample.acme_with_parent]
                      Sample.start _ _)) _).
  - reflexivity.
  - reflexivity.
Defined.

(** ** What each part of a run may change *)

Section Frame.

Variable R : world -> world -> Prop.
Hypothesis R_refl : forall w, R w w.
Hypothesis R_trans : forall a b c, R a b -> R b c -> R a c.
Hypothesis R_emit : forall ev, steps_by R (emit ev).
Hypothesis R_ask : steps_by R ask.

Variable src : source_file.
Hypothesis R_db : forall f w, db_op src f -> R w (snd (set_db (f (db w)) w)).

Variable E : env.

Lemma steps_ret {A} (a : A) : steps_by R (ret a).
Proof. intros w. apply R_refl. Qed.

Lemma steps_raise {A} (e : exn) : steps_by R (@raise A e).
Proof. intros w. apply R_refl. Qed.

Lemma steps_bind {A B} (m : M A) (k : A -> M B) :
  steps_by R m -> (forall a, steps_by R (k a)) -> steps_by R (bind m k).
Proof.
  intros Hm Hk w. unfold bind. specialize (Hm w).
  destruct (m w) as [[a|e] w1]; simpl in *; [|exact Hm].
  eapply R_trans; [exact Hm | apply Hk].
Qed.

Lemma steps_try_except {A} (m : M A) (h : exn -> M A) :
  steps_by R m -> (forall e, steps_by R (h e)) -> steps_by R (try_except m h).
Proof.
  intros Hm Hh w. unfold try_except. specialize (Hm w).
  destruct (m w) as [[a|e] w1]; simpl in *; [exact Hm|].
  eapply R_trans; [exact Hm | apply Hh].
Qed.

Lemma steps_try_finally {A} (m : M A) (f : M unit) :
  steps_by R m -> steps_by R f -> steps_by R (try_finally m f).
Proof.
  intros Hm Hf w. unfold try_finally. specialize (Hm w).
  destruct (m w) as [r w1]. specialize (Hf w1). simpl in Hm.
  destruct (f w1) as [[[]|e] w2]; simpl in *; eapply R_trans; eassumption.
Qed.

Lemma steps_logger lvl msg : steps_by R (logger lvl msg).
Proof. apply R_emit. Qed.

Lemma steps_sleep s : steps_by R (sleep s).
Proof. apply R_emit. Qed.

Lemma steps_fetch_once url : steps_by R (fetch_once src E url).
Proof.
  unfold fetch_once. apply steps_bind; [exact R_ask|]. intros n.
  apply steps_bind; [apply R_emit|]. intros _.
  destruct (urlopen E n (request_of src url) 10); [apply steps_ret | apply steps_raise].
Qed.

Lemma steps_retrying url fuel : forall n, steps_by R (retrying src E fuel n url).
Proof.
  induction fuel as [|fuel IH]; intros n; cbn [retrying];
    (apply steps_try_except; [apply steps_fetch_once|]); intros e;
    destruct (negb (retry_if_HTTPError e)); try apply steps_raise;
    destruct (stop_after_attempt 3 n); try apply steps_raise.
  apply steps_bind; [apply steps_logger|]. intros _.
  apply steps_bind; [apply steps_sleep|]. intros _. apply IH.
Qed.

Lemma steps_fetch_page url : steps_by R (fetch_page src E url).
Proof. apply steps_retrying. Qed.

Lemma steps_scrape_page page records w :
  R w (snd (scrape_page src E page records w)).
Proof.
  unfold scrape_page, try_page.
  pose proof (steps_sleep 10 w) as H0.
  pose proof (steps_fetch_page (page_url page) (snd (sleep 10 w))) as H1.
  destruct (fetch_page src E (page_url page) (snd (sleep 10 w))) as [[html|e] w1];
    simpl in H1.
  - destruct (views_table html) as [table|].
    + destruct (tbody table) as [rows|].
      * destruct (for_rows rows records) as [records' [[]|e]]; simpl;
          (eapply R_trans; [exact H0|]); (eapply R_trans; [exact H1|]);
          apply steps_logger.
      * simpl. eapply R_trans; [exact H0|]. eapply R_trans; [exact H1|].
        apply steps_logger.
    + simpl. eapply R_trans; [exact H0|]. eapply R_trans; [exact H1|].
      apply steps_logger.
  - simpl. eapply R_trans; [exact H0|]. eapply R_trans; [exact H1|].
    apply steps_logger.
Qed.

Lemma steps_for_pages ps : forall records w,
  R w (snd (for_pages src E ps records w)).
Proof.
  induction ps as [|p ps IH]; intros records w; simpl; [apply R_refl|].
  pose proof (steps_scrape_page p records w) as H.
  destruct (scrape_page src E p records w) as [records' w']. simpl in H.
  eapply R_trans; [exact H | apply IH].
Qed.

Lemma steps_scrape : steps_by R (scrape_violation_tracker src E).
Proof.
  intros w. unfold scrape_violation_tracker.
  pose proof (steps_for_pages pages [] w) as H.
  destruct (for_pages src E pages [] w) as [records w']. exact H.
Qed.

Lemma steps_db_call f : db_op src f -> steps_by R (db_call E f).
Proof.
  intros Hf. unfold db_call. apply steps_bind; [exact R_ask|]. intros n.
  destruct (db_fault E n); [apply steps_raise|].
  intros w. unfold bind, get_db. apply R_db, Hf.
Qed.

Lemma steps_logging_database_errors {A} msg (m : M A) :
  steps_by R m -> steps_by R (logging_database_errors msg m).
Proof.
  intros Hm. unfold logging_database_errors. apply steps_try_except; [exact Hm|].
  intros e. destruct (is_database_error e); [|apply steps_raise].
  apply steps_bind; [apply steps_logger|]. intros _. apply steps_raise.
Qed.

Lemma steps_connect : steps_by R (connect E).
Proof.
  apply steps_logging_database_errors, steps_bind;
    [apply steps_db_call, op_none | intros _; apply steps_logger].
Qed.

Lemma steps_create_table : steps_by R (create_table E).
Proof.
  apply steps_logging_database_errors.
  repeat (apply steps_bind; [apply steps_db_call; constructor | intros _]).
  apply steps_logger.
Qed.

Lemma steps_for_records records : steps_by R (for_records src E records).
Proof.
  induction records as [|r records IH]; simpl; [apply steps_ret|].
  apply steps_bind; [apply steps_db_call, op_insert | intros _; exact IH].
Qed.

Lemma steps_store_records records : steps_by R (store_records src E records).
Proof.
  apply steps_logging_database_errors.
  apply steps_bind; [apply steps_db_call, op_none | intros _].
  apply steps_bind; [apply steps_for_records | intros _].
  apply steps_bind; [apply steps_db_call, op_commit | intros _].
  apply steps_logger.
Qed.

Lemma steps_close : steps_by R close.
Proof. intros w. unfold close, bind, get_db. apply (R_db _ w (op_close src)). Qed.

Lemma steps_verify_results : steps_by R (verify_results E).
Proof.
  unfold verify_results. apply steps_bind; [exact R_ask|]. intros n.
  destruct (verify_fault E n); [apply steps_raise | apply steps_ret].
Qed.

Hypothesis R_write : forall name l, steps_by R (write_sink name l).

Lemma steps_sink_call : steps_by R (sink_call E).
Proof.
  unfold sink_call. apply steps_bind; [exact R_ask|]. intros n.
  destruct (sink_fault E n); [apply steps_raise | apply steps_ret].
Qed.

Lemma steps_save_logs records : steps_by R (save_logs src E records).
Proof.
  unfold save_logs. apply steps_bind; [exact R_ask|]. intros t.
  destruct src.
  - apply steps_bind; [exact R_ask|]. intros t'.
    apply steps_try_except; [|intros e; apply steps_logger].
    apply steps_bind; [apply steps_sink_call | intros _].
    apply steps_bind; [apply R_write | intros _; apply steps_logger].
  - apply steps_bind; [apply steps_sink_call | intros _].
    apply steps_bind; [exact R_ask|]. intros t'.
    apply steps_bind; [apply steps_sink_call | intros _].
    apply steps_bind; [apply R_write | intros _; apply steps_logger].
Qed.

Lemma steps_main_scraper : src = main_py -> steps_by R (main_scraper E).
Proof.
  intros Hsrc w. unfold main_scraper. rewrite <- Hsrc.
  pose proof (steps_connect w) as H0.
  destruct (connect E w) as [[[]|e] w0]; simpl in H0.
  - match goal with
    | |- context [bind ?m ?k w0] =>
        assert (H1 : R w0 (snd (bind m k w0)));
        [|destruct (bind m k w0) as [[[]|e1] w1]; simpl in H1]
    end.
    + apply steps_bind; [apply steps_create_table | intros _].
      apply steps_bind; [apply steps_scrape | intros records].
      destruct (nonempty records); [|apply steps_logger].
      apply steps_bind; [apply steps_store_records | intros _].
      apply steps_save_logs.
    + cbv beta iota zeta. eapply R_trans; [exact H0|]. eapply R_trans; [exact H1|].
      eapply R_trans; [apply steps_close | apply steps_logger].
    + cbv beta iota zeta. eapply R_trans; [exact H0|]. eapply R_trans; [exact H1|].
      eapply R_trans; [apply steps_logger|].
      eapply R_trans; [apply steps_close | apply steps_logger].
  - cbv beta iota zeta. eapply R_trans; [exact H0|].
    eapply R_trans; apply steps_logger.
Qed.

Lemma steps_main : src = scraper_py -> steps_by R (main E).
Proof.
  intros Hsrc w. unfold main. rewrite <- Hsrc.
  pose proof (steps_connect w) as H0.
  destruct (connect E w) as [[[]|e] w0]; simpl in H0.
  - eapply R_trans; [exact H0|]. apply steps_try_finally.
    + apply steps_bind; [apply steps_create_table | intros _].
      apply steps_bind; [apply steps_scrape | intros records].
      apply steps_bind;
        [destruct (nonempty records); [apply steps_store_records | apply steps_ret]
        | intros _].
      apply steps_bind; [apply steps_save_logs | intros _].
      apply steps_verify_results.
    + apply steps_bind; [apply steps_close | intros _; apply steps_logger].
  - eapply R_trans; [exact H0 | apply steps_logger].
Qed.

Lemma steps_run : steps_by R (run E src).
Proof.
  assert (H : forall s, s = src -> steps_by R (run E s)).
  { intros s Hs. destruct s; [apply steps_main_scraper | apply steps_main]; auto. }
  apply H. reflexivity.
Qed.

End Frame.

(** ** Whole runs *)

Section RunFacts.

Variable E : env.

Lemma sink_kept_refl w : sink_kept w w.
Proof. reflexivity. Qed.

Lemma sink_kept_trans a b c : sink_kept a b -> sink_kept b c -> sink_kept a c.
Proof. unfold sink_kept. congruence. Qed.

Lemma sink_kept_emit ev : steps_by sink_kept (emit ev).
Proof. intros w. reflexivity. Qed.

Lemma sink_kept_ask : steps_by sink_kept ask.
Proof. intros w. reflexivity. Qed.

Lemma sink_kept_db src f w : db_op src f -> sink_kept w (snd (set_db (f (db w)) w)).
Proof. intros _. reflexivity. Qed.

Ltac by_sink_kept lem :=
  let H := fresh in
  pose proof lem as H; unfold steps_by in H; eapply H; clear H;
  first [ exact sink_kept_refl | exact sink_kept_trans | exact sink_kept_emit
        | exact sink_kept_ask | exact (sink_kept_db main_py)
        | exact (sink_kept_db _) ].

Lemma connect_sink w : sink (snd (connect E w)) = sink w.
Proof. by_sink_kept (steps_connect sink_kept). Qed.

Lemma create_table_sink w : sink (snd (create_table E w)) = sink w.
Proof. by_sink_kept (steps_create_table sink_kept). Qed.

Lemma scrape_sink src w : sink (snd (scrape_violation_tracker src E w)) = sink w.
Proof. by_sink_kept (steps_scrape sink_kept). Qed.

Lemma store_records_sink src records w :
  sink (snd (store_records src E records w)) = sink w.
Proof. by_sink_kept (steps_store_records sink_kept). Qed.

Lemma verify_results_sink w : sink (snd (verify_results E w)) = sink w.
Proof. by_sink_kept (steps_verify_results sink_kept). Qed.

(** The pages are scraped without a change of the database. *)
Lemma scrape_db src w : db (snd (scrape_violation_tracker src E w)) = db w.
Proof.
  pose proof (steps_scrape db_kept) as H. unfold steps_by, db_kept in H.
  apply H; clear H; try reflexivity. congruence.
Qed.

(** A run takes a reachable table to a reachable table. *)
Lemma run_reachable src w :
  reachable src (db w) -> reachable src (db (snd (run E src w))).
Proof.
  pose proof (steps_run (table_reachable src)) as H.
  unfold steps_by, table_reachable in H. apply H; clear H; auto.
  intros f w0 Hf Hr. simpl. apply reach_step; assumption.
Qed.

Hypothesis no_db_fault : forall n, db_fault E n = None.

Lemma connect_faultless w : fst (connect E w) = Returned tt.
Proof.
  unfold connect, logging_database_errors, try_except, bind.
  rewrite db_call_eq, no_db_fault. reflexivity.
Qed.

Lemma create_table_faultless w : fst (create_table E w) = Returned tt.
Proof.
  unfold create_table, logging_database_errors, try_except, bind,
    cursor, execute_create, commit.
  rewrite db_call_eq, no_db_fault, db_call_eq, no_db_fault, db_call_eq, no_db_fault.
  reflexivity.
Qed.

Hypothesis no_sink_fault : forall n, sink_fault E n = None.

(** With a sink that takes the object, [save_logs] writes it once. *)
Lemma save_logs_writes src records w :
  fst (save_logs src E records w) = Returned tt
  /\ exists name,
       sink (snd (save_logs src E records w))
       = sink w ++ [(name, {| timestamp := now E (asked w);
                              records_processed := List.length records |})].
Proof.
  unfold save_logs, sink_call, bind, ask, try_except. destruct src; simpl;
    repeat (rewrite no_sink_fault; simpl); split; try reflexivity;
    eexists; reflexivity.
Qed.

End RunFacts.

(** [main_scraper] of [main.py] always returns. *)
Lemma main_scraper_returns (E : env) (w : world) :
  fst (main_scraper E w) = Returned tt.
Proof.
  unfold main_scraper.
  destruct (connect E w) as [[[]|e] w0]; [|reflexivity].
  match goal with |- context [bind ?m ?k w0] => destruct (bind m k w0) as [[[]|e1] w1] end;
    reflexivity.
Qed.

(** C9, [scraper.py] against the claim: two records are scraped and
    stored, the log cannot be written, and [main] ends by raising the
    error of the write, which no log line reports; the records stay
    committed. [main_scraper] of [main.py] in the same environment logs
    the error and returns. *)
Theorem log_write_failure_ends_scraper_run :
  fst (main Sample.log_sink_down Sample.start) = Raised OSError
  /\ committed (db (snd (main Sample.log_sink_down Sample.start)))
     = [Sample.acme; Sample.bolt]
  /\ log_lines (trace (snd (main Sample.log_sink_down Sample.start)))
     = [(INFO, Connected_to_database); (INFO, Created_table);
        (INFO, Scraped_records 1 1);
        (INFO, Retrying_request 1); (INFO, Retrying_request 2);
        (ERROR, Unexpected_error_on_page 2 (RetryError (HTTPError 503)));
        (INFO, Scraped_records 1 3); (INFO, Stored_records 2);
        (INFO, Connection_closed)]
  /\ fst (main_scraper Sample.log_sink_down Sample.start) = Returned tt
  /\ committed (db (snd (main_scraper Sample.log_sink_down Sample.start)))
     = [Sample.acme; Sample.bolt]
  /\ log_lines (trace (snd (main_scraper Sample.log_sink_down Sample.start)))
     = [(INFO, Connected_to_database); (INFO, Created_table);
        (INFO, Scraped_records 1 1);
        (INFO, Retrying_request 1); (INFO, Retrying_request 2);
        (ERROR, Error_on_page 2 (RetryError (HTTPError 503)));
        (INFO, Scraped_records 1 3); (INFO, Stored_records 2);
        (ERROR, Error_saving_log OSError); (INFO, Finished_execution)].
Proof. vm_compute. repeat split. Qed.

(** C10, as the code has it. In a run without a fault of the database
    or of the log sink, the pages are scraped after the connection and the
    table are set up, and with the records they give: [scraper.py] writes
    one log object whatever the records are, [main.py] writes one when
    there is at least one record and none when there is none; the object
    written counts the records scraped, which are the records handed to
    [store_records], not the rows inserted. *)
Theorem run_log_written (src : source_file) (E : env) (w : world) :
  (forall n, db_fault E n = None) ->
  (forall n, sink_fault E n = None) ->
  exists records,
    fst (scrape_violation_tracker src E (snd (create_table E (snd (connect E w)))))
    = Returned records
    /\ match src, records with
       | main_py, [] => sink (snd (run E src w)) = sink w
       | _, _ =>
           exists name stamp,
             sink (snd (run E src w))
             = sink w ++ [(name, {| timestamp := stamp;
                                    records_processed := List.length records |})]
       end.
Proof.
  intros Hdb Hsink.
  pose proof (connect_faultless E Hdb w) as Hc.
  pose proof (connect_sink E w) as Sc.
  destruct (connect E w) as [oc w0] eqn:Ec. simpl in Hc, Sc. subst oc. cbn [snd].
  pose proof (create_table_faultless E Hdb w0) as Ht.
  pose proof (create_table_sink E w0) as St.
  destruct (create_table E w0) as [ot w1] eqn:Et. simpl in Ht, St. subst ot. cbn [snd].
  pose proof (scrape_sink E src w1) as Ss.
  destruct (scrape_returns src E w1) as [records Hr].
  destruct (scrape_violation_tracker src E w1) as [os w2] eqn:Es.
  simpl in Hr, Ss. subst os. cbn [fst].
  exists records. split; [reflexivity|].
  destruct (store_records_faultless src E records w2 Hdb) as [w3 E3].
  pose proof (store_records_sink E src records w2) as S3. rewrite E3 in S3. simpl in S3.
  destruct src.
  - unfold run, main_scraper. rewrite Ec. unfold bind. rewrite Et, Es.
    destruct records as [|r records'].
    + simpl. congruence.
    + change (nonempty (r :: records')) with true. cbv beta iota. rewrite E3.
      destruct (save_logs_writes E Hsink main_py (r :: records') w3) as [Hv [name Hw]].
      destruct (save_logs main_py E (r :: records') w3) as [ov w4].
      simpl in Hv, Hw. subst ov. simpl.
      exists name, (now E (asked w3)).
      rewrite Hw. congruence.
  - assert (G : exists name stamp,
               sink (snd (run E scraper_py w))
               = sink w ++ [(name, {| timestamp := stamp;
                                      records_processed := List.length records |})]).
    { unfold run, main. rewrite Ec. unfold try_finally, bind. rewrite Et, Es.
      destruct (nonempty records); cbv beta iota.
      - rewrite E3.
        destruct (save_logs_writes E Hsink scraper_py records w3) as [Hv [name Hw]].
        destruct (save_logs scraper_py E records w3) as [ov w4].
        simpl in Hv, Hw. subst ov.
        pose proof (verify_results_sink E w4) as S5.
        destruct (verify_results E w4) as [o5 w5]. simpl in S5.
        exists name, (now E (asked w3)).
        simpl. rewrite S5, Hw. congruence.
      - unfold ret.
        destruct (save_logs_writes E Hsink scraper_py records w2) as [Hv [name Hw]].
        destruct (save_logs scraper_py E records w2) as [ov w4].
        simpl in Hv, Hw. subst ov.
        pose proof (verify_results_sink E w4) as S5.
        destruct (verify_results E w4) as [o5 w5]. simpl in S5.
        exists name, (now E (asked w2)).
        simpl. rewrite S5, Hw. congruence. }
    destruct records; exact G.
Qed.

(** An instance: [scraper.py] finds no table on any page and writes a
    log object that counts no record. *)
Lemma run_log_written_witness :
  exists name stamp,
    sink (snd (run Sample.nothing_found scraper_py Sample.start))
    = [(name, {| timestamp := stamp; records_processed := 0 |})].
Proof.
  destruct (run_log_written scraper_py Sample.nothing_found Sample.start)
    as [records [Hr Hs]].
  - intros n. reflexivity.
  - intros n. reflexivity.
  - assert (records = []) as -> by (vm_compute in Hr; congruence).
    exact Hs.
Defined.

(** [main.py] finds no table on any page: the run returns and no log
    object is written. *)
Lemma no_records_no_run_log :
  fst (scrape_violation_tracker main_py Sample.nothing_found
         (snd (create_table Sample.nothing_found
                 (snd (connect Sample.nothing_found Sample.start)))))
  = Returned []
  /\ fst (main_scraper Sample.nothing_found Sample.start) = Returned tt
  /\ sink (snd (main_scraper Sample.nothing_found Sample.start)) = []
  /\ log_lines (trace (snd (main_scraper Sample.nothing_found Sample.start)))
     = [(INFO, Connected_to_database); (INFO, Created_table);
        (WARNING, No_table_found 1); (WARNING, No_table_found 2);
        (WARNING, No_table_found 3); (INFO, No_records_scraped);
        (INFO, Finished_execution)].
Proof. vm_compute. repeat split. Qed.

(** * Further properties *)

(** ** Page addresses *)

Section UrlFacts.

Lemma txt_inj (a b : string) : txt a = txt b -> a = b.
Proof.
  unfold txt. intros H.
  rewrite <- (string_of_list_ascii_of_string a), <- (string_of_list_ascii_of_string b).
  now rewrite H.
Qed.

Lemma str_of_nat_inj (a b : nat) : str_of_nat a = str_of_nat b -> a = b.
Proof.
  unfold str_of_nat. intros H. apply txt_inj in H.
  apply DecimalNat.Unsigned.to_uint_inj.
  pose proof (DecimalString.NilEmpty.usu (Nat.to_uint a)) as Ha.
  pose proof (DecimalString.NilEmpty.usu (Nat.to_uint b)) as Hb.
  rewrite H in Ha. congruence.
Qed.

End UrlFacts.

(** X1. Page 1 is asked for at the bare query URL, a page after it at
    that URL followed by [&page=] and the page number, and two different
    pages, from page 1 on, never share a URL. *)
Theorem page_url_distinct (p q : nat) :
  (1 <= p)%nat -> (1 <= q)%nat ->
  (p = 1%nat -> page_url p = base_url)
  /\ ((1 < p)%nat -> page_url p = base_url ++ txt "&page=" ++ str_of_nat p)
  /\ (page_url p = page_url q -> p = q).
Proof.
  intros Hp Hq. split; [intros ->; reflexivity|]. split.
  - intros H. unfold page_url. destruct (Nat.ltb_spec 1 p); [reflexivity | lia].
  - unfold page_url.
    destruct (Nat.ltb_spec 1 p) as [Lp|Lp]; destruct (Nat.ltb_spec 1 q) as [Lq|Lq];
      intros H.
    + apply app_inv_head in H. apply app_inv_head in H.
      apply str_of_nat_inj, H.
    + apply (f_equal (@List.length ascii)) in H. rewrite !length_app in H.
      simpl in H. lia.
    + apply (f_equal (@List.length ascii)) in H. rewrite !length_app in H.
      simpl in H. lia.
    + lia.
Qed.

Lemma page_url_distinct_witness :
  page_url 3 = base_url ++ txt "&page=" ++ str_of_nat 3.
Proof.
  apply (page_url_distinct 3 2); lia.
Defined.

(** ** Cells and rows *)

Section CellFacts.

Lemma cell_short cols i : (List.length cols <= i)%nat -> cell cols i = Raised IndexError.
Proof.
  intros H. unfold cell. rewrite (proj2 (nth_error_None cols i) H). reflexivity.
Qed.

Lemma cell_long cols i :
  (i < List.length cols)%nat -> exists c, cell cols i = Returned c.
Proof.
  intros H. unfold cell. destruct (nth_error cols i) as [c|] eqn:E.
  - now exists c.
  - apply nth_error_None in E. lia.
Qed.

Lemma cell_app cols more i :
  (i < List.length cols)%nat -> cell (cols ++ more) i = cell cols i.
Proof. intros H. unfold cell. rewrite nth_error_app1 by exact H. reflexivity. Qed.

Lemma space_not_mark x : isspace x = true -> is_currency_mark x = false.
Proof.
  destruct x as [[] [] [] [] [] [] [] []]; vm_compute; congruence.
Qed.

Lemma strip_part (f : ascii -> bool) s :
  forallb f s = true -> forallb f (strip s) = true.
Proof.
  intros H. destruct (strip_trimmed s) as [l [r [Hs _]]].
  rewrite Hs, !forallb_app in H.
  apply andb_prop in H. destruct H as [_ H].
  apply andb_prop in H. destruct H as [H _]. exact H.
Qed.

End CellFacts.

(** X3. A row with fewer than seven cells raises [IndexError]; a row
    with seven cells or more raises nothing but [ValueError] (of the year
    or of the penalty), and its cells after the seventh are not read. *)
Theorem row_cell_count (cols : list text) :
  ((List.length cols < 7)%nat -> row_record cols = Raised IndexError)
  /\ ((7 <= List.length cols)%nat ->
      (forall e, row_record cols = Raised e -> e = ValueError)
      /\ forall more, row_record (cols ++ more) = row_record cols).
Proof.
  split.
  - intros H. unfold row_record. rewrite cell_short by lia. reflexivity.
  - intros H. split.
    + intros e. unfold row_record.
      destruct (cell_long cols 6) as [c6 ->]; [lia|]. simpl.
      destruct (penalty_amount_of c6) as [a|e0] eqn:Ea; simpl.
      * destruct (cell_long cols 0) as [c0 ->]; [lia|].
        destruct (cell_long cols 1) as [c1 ->]; [lia|].
        destruct (cell_long cols 2) as [c2 ->]; [lia|].
        destruct (cell_long cols 3) as [c3 ->]; [lia|].
        destruct (cell_long cols 4) as [c4 ->]; [lia|]. simpl.
        destruct (py_int (strip c4)) as [y|e1] eqn:Ey; simpl.
        -- destruct (cell_long cols 5) as [c5 ->]; [lia|]. discriminate.
        -- intros He. inversion He; subst. eapply py_int_raises, Ey.
      * intros He. inversion He; subst. eapply penalty_amount_raises, Ea.
    + intros more. unfold row_record. rewrite !cell_app by lia. reflexivity.
Qed.

(** X4. A penalty cell made of white space and currency marks only gives
    [0.0] when its marks stand together, and raises [ValueError] when
    white space is left between them. *)
Theorem blank_penalty (c : text) :
  blank_cell c = true ->
  penalty_amount_of c
  = if existsb isspace (strip c) then Raised ValueError else Returned float_zero.
Proof.
  intros H. unfold penalty_amount_of. rewrite penalty_text_filter.
  pose proof (strip_part _ c H) as Hs. clear H.
  assert (G : forall s,
             forallb (fun x => isspace x || is_currency_mark x) s = true ->
             forallb isspace (filter (fun x => negb (is_currency_mark x)) s) = true
             /\ (existsb isspace s = false ->
                 filter (fun x => negb (is_currency_mark x)) s = [])
             /\ (existsb isspace s = true ->
                 filter (fun x => negb (is_currency_mark x)) s <> [])).
  { induction s as [|x s IH]; simpl; intros Hf.
    - repeat split; congruence.
    - apply andb_prop in Hf. destruct Hf as [Hx Hf].
      destruct (IH Hf) as [I1 [I2 I3]].
      destruct (isspace x) eqn:Ex.
      + rewrite (space_not_mark x Ex). simpl. rewrite Ex, I1.
        repeat split; congruence.
      + simpl in Hx. rewrite Hx. simpl. repeat split; assumption. }
  destruct (G _ Hs) as [G1 [G2 G3]].
  destruct (existsb isspace (strip c)).
  - destruct (filter _ (strip c)) as [|x s] eqn:Ef; [exfalso; now apply G3|].
    apply py_float_blank, G1.
  - rewrite G2; reflexivity.
Qed.

Lemma blank_penalty_witness :
  penalty_amount_of (txt " $ $ ") = Raised ValueError
  /\ penalty_amount_of (txt " $,$ ") = Returned float_zero.
Proof.
  split.
  - exact (blank_penalty (txt " $ $ ") eq_refl).
  - exact (blank_penalty (txt " $,$ ") eq_refl).
Defined.

(** ** Entry point *)

(** X2. [run_scraper] always returns the completion message and the
    status 200, whatever the database, the network and the log sink do:
    no exception leaves it. *)
Theorem run_scraper_completes (E : env) (w : world) :
  fst (run_scraper E w) = Returned (txt "Scraper completed.", 200%nat).
Proof.
  unfold run_scraper, bind, logger, emit.
  pose proof (main_scraper_returns E
                {| trace := trace w ++ [Log INFO Starting_scraper];
                   asked := asked w; db := db w; sink := sink w |}) as H.
  destruct (main_scraper E _) as [o w1]. simpl in H. subst o. reflexivity.
Qed.

(** ** The traffic of a run *)

Section TrafficFacts.

Variable src : source_file.
Variable E : env.

Lemma request_urls_app a b : request_urls (a ++ b) = request_urls a ++ request_urls b.
Proof.
  induction a as [|ev a IH]; simpl; [reflexivity|].
  destruct ev; simpl; rewrite IH; reflexivity.
Qed.

Lemma sleeps_app a b : sleeps (a ++ b) = sleeps a ++ sleeps b.
Proof.
  induction a as [|ev a IH]; simpl; [reflexivity|].
  destruct ev; simpl; rewrite IH; reflexivity.
Qed.

Lemma slept_app a b : slept (a ++ b) = (slept a + slept b)%Z.
Proof.
  unfold slept. rewrite sleeps_app.
  induction (sleeps a) as [|s l IH]; simpl; [reflexivity | rewrite IH; lia].
Qed.

(** The events of a call of the retry loop. *)
Lemma retrying_events url : forall fuel n w,
  exists k,
    (k <= 3 - n)%nat
    /\ trace (snd (retrying src E fuel n url w))
       = trace w ++ Request url :: flat_map (retry_events url) (seq n k).
Proof.
  induction fuel as [|fuel IH]; intros n w; rewrite retrying_eq;
    destruct (urlopen E (asked w) (request_of src url) 10) as [d|e];
    try (exists 0%nat; split; [lia | reflexivity]);
    destruct (negb (retry_if_HTTPError e));
    try (exists 0%nat; split; [lia | reflexivity]);
    unfold stop_after_attempt; destruct (Nat.leb_spec 3 n);
    try (exists 0%nat; split; [lia | reflexivity]).
  destruct (IH (S n) (backed_off n (requested url w))) as [k [Hk Ht]].
  exists (S k). split; [lia|]. rewrite Ht. simpl. rewrite <- !app_assoc. reflexivity.
Qed.

Lemma page_events_urls url k tail :
  (k <= 2)%nat -> request_urls tail = [] ->
  request_urls (page_events url k tail) = repeat url (S k).
Proof.
  intros Hk Ht. unfold page_events.
  assert (k = 0 \/ k = 1 \/ k = 2)%nat as [->|[->| ->]] by lia;
    simpl; rewrite ?request_urls_app, Ht; reflexivity.
Qed.

Lemma page_events_slept url k tail :
  (k <= 2)%nat -> sleeps tail = [] ->
  slept (page_events url k tail) = (10 + 2 * Z.of_nat k)%Z.
Proof.
  intros Hk Ht. unfold page_events, slept.
  assert (k = 0 \/ k = 1 \/ k = 2)%nat as [->|[->| ->]] by lia;
    simpl; rewrite ?sleeps_app, Ht; reflexivity.
Qed.

(** The events of a page turn. *)
Lemma scrape_page_events page records w :
  exists k tail,
    (k <= 2)%nat /\ request_urls tail = [] /\ sleeps tail = []
    /\ trace (snd (scrape_page src E page records w))
       = trace w ++ page_events (page_url page) k tail.
Proof.
  unfold scrape_page, try_page, fetch_page.
  destruct (retrying_events (page_url page) 3 1 (snd (sleep 10 w))) as [k [Hk Ht]].
  destruct (retrying src E 3 1 (page_url page) (snd (sleep 10 w))) as [[html|e] w1];
    simpl in Ht.
  - destruct (views_table html) as [table|].
    + destruct (tbody table) as [rows|].
      * destruct (for_rows rows records) as [records' [[]|e]]; simpl.
        -- exists k, [Log INFO (Scraped_records (List.length rows) page)].
           split; [lia|]; rewrite Ht, <- !app_assoc; repeat split.
        -- exists k, [Log ERROR (page_error_message src page e)].
           split; [lia|]; rewrite Ht, <- !app_assoc; repeat split.
      * simpl. exists k, [Log ERROR (page_error_message src page AttributeError)].
        split; [lia|]; rewrite Ht, <- !app_assoc; repeat split.
    + simpl.
      exists k, [Log (match src with main_py => WARNING | scraper_py => ERROR end)
                     (No_table_found page)].
      split; [lia|]; rewrite Ht, <- !app_assoc; repeat split.
  - simpl. exists k, [Log ERROR (page_error_message src page e)].
    split; [lia|]; rewrite Ht, <- !app_assoc; repeat split.
Qed.

(** Whatever the records a page turn starts from, it adds the same
    records to them and leaves the same world. *)
Lemma for_rows_from_empty rows : forall records,
  for_rows rows records = (records ++ fst (for_rows rows []), snd (for_rows rows [])).
Proof.
  induction rows as [|row rows IH]; intros records; simpl.
  - rewrite app_nil_r. reflexivity.
  - destruct (row_record row) as [r|e]; simpl.
    + rewrite (IH (records ++ [r])), (IH [r]). simpl.
      rewrite <- app_assoc. reflexivity.
    + rewrite app_nil_r. reflexivity.
Qed.

Lemma scrape_page_from_empty page records w :
  scrape_page src E page records w
  = (records ++ fst (scrape_page src E page [] w),
     snd (scrape_page src E page [] w)).
Proof.
  unfold scrape_page, try_page.
  destruct (fetch_page src E (page_url page) (snd (sleep 10 w))) as [[html|e] w1].
  - destruct (views_table html) as [table|].
    + destruct (tbody table) as [rows|].
      * rewrite (for_rows_from_empty rows records).
        destruct (for_rows rows []) as [recs [[]|e]]; reflexivity.
      * simpl. rewrite app_nil_r. reflexivity.
    + simpl. rewrite app_nil_r. reflexivity.
  - simpl. rewrite app_nil_r. reflexivity.
Qed.

End TrafficFacts.

(** X6. A run over the pages asks for page 1, then page 2, then page 3,
    each between one and three times; the first thing it does is to wait
    10 time units; and the time it sleeps in all is 30 time units for the
    three delays plus 2 for each retry, 42 at most. *)
Theorem scrape_traffic (src : source_file) (E : env) (w : world) :
  exists evs k1 k2 k3,
    trace (snd (scrape_violation_tracker src E w)) = trace w ++ evs
    /\ (k1 <= 2 /\ k2 <= 2 /\ k3 <= 2)%nat
    /\ request_urls evs
       = repeat (page_url 1) (S k1) ++ repeat (page_url 2) (S k2)
         ++ repeat (page_url 3) (S k3)
    /\ slept evs = (30 + 2 * Z.of_nat (k1 + k2 + k3))%Z
    /\ (30 <= slept evs <= 42)%Z
    /\ exists rest, evs = Sleep 10 :: Request (page_url 1) :: rest.
Proof.
  unfold scrape_violation_tracker, pages. simpl seq. simpl for_pages.
  destruct (scrape_page_events src E 1 [] w) as [k1 [t1 [H1 [U1 [S1 T1]]]]].
  destruct (scrape_page src E 1 [] w) as [r1 w1]. simpl in T1.
  destruct (scrape_page_events src E 2 r1 w1) as [k2 [t2 [H2 [U2 [S2 T2]]]]].
  destruct (scrape_page src E 2 r1 w1) as [r2 w2]. simpl in T2.
  destruct (scrape_page_events src E 3 r2 w2) as [k3 [t3 [H3 [U3 [S3 T3]]]]].
  destruct (scrape_page src E 3 r2 w2) as [r3 w3]. simpl in T3. simpl snd.
  exists (page_events (page_url 1) k1 t1 ++ page_events (page_url 2) k2 t2
          ++ page_events (page_url 3) k3 t3), k1, k2, k3.
  assert (Hs : slept (page_events (page_url 1) k1 t1 ++ page_events (page_url 2) k2 t2
                      ++ page_events (page_url 3) k3 t3)
               = (30 + 2 * Z.of_nat (k1 + k2 + k3))%Z).
  { rewrite !slept_app, !page_events_slept by assumption. lia. }
  split; [rewrite T3, T2, T1, <- !app_assoc; reflexivity|].
  split; [lia|]. split.
  - rewrite !request_urls_app, !page_events_urls by assumption. reflexivity.
  - split; [exact Hs|]. split; [rewrite Hs; lia|].
    unfold page_events at 1. simpl. eexists. reflexivity.
Qed.

(** X7. What a run returns is the records page 1 adds to an empty list,
    followed by those page 2 adds, followed by those page 3 adds: the
    records of a page are added after the records of the pages before it,
    which stay as they are whatever happens on the page. *)
Theorem scrape_concatenates (src : source_file) (E : env) (w : world) :
  let w1 := snd (scrape_page src E 1 [] w) in
  let w2 := snd (scrape_page src E 2 [] w1) in
  fst (scrape_violation_tracker src E w)
  = Returned (fst (scrape_page src E 1 [] w)
              ++ fst (scrape_page src E 2 [] w1)
              ++ fst (scrape_page src E 3 [] w2)).
Proof.
  intros w1 w2. subst w1 w2.
  unfold scrape_violation_tracker, pages. simpl seq. simpl for_pages.
  destruct (scrape_page src E 1 [] w) as [r1 w1] eqn:E1. simpl.
  rewrite (scrape_page_from_empty src E 2 r1 w1).
  destruct (scrape_page src E 2 [] w1) as [r2 w2] eqn:E2. simpl.
  rewrite (scrape_page_from_empty src E 3 (r1 ++ r2) w2).
  destruct (scrape_page src E 3 [] w2) as [r3 w3] eqn:E3. simpl.
  rewrite <- app_assoc. reflexivity.
Qed.

(** ** The two files *)

Section FileFacts.

Variable E : env.
Variables src src' : source_file.

Hypothesis answered_alike : forall n url,
  urlopen E n (request_of src url) 10 = urlopen E n (request_of src' url) 10.




End FileFacts.



(** ** Batches *)

Section BatchFacts.

Variable src : source_file.
Variable E : env.

Lemma for_records_returned_calls records : forall w w',
  for_records src E records w = (Returned tt, w') ->
  trace w' = trace w
  /\ asked w' = (asked w + List.length records)%nat
  /\ forall k, (k < List.length records)%nat -> db_fault E (asked w + k) = None.
Proof.
  induction records as [|r records IH]; intros w w' H; simpl in H.
  - inversion H; subst. repeat split; simpl in *; lia.
  - unfold bind, execute_insert in H. rewrite db_call_eq in H.
    destruct (db_fault E (asked w)) eqn:Hf; [discriminate|].
    apply IH in H. simpl in H. destruct H as [Ht [Ha Hn]].
    split; [exact Ht|]. split; [simpl; lia|].
    intros k Hk. destruct k as [|k]; [now rewrite Nat.add_0_r|].
    replace (asked w + S k)%nat with (S (asked w) + k)%nat by lia.
    apply Hn. simpl in Hk. lia.
Qed.

Lemma for_records_calls_returned records : forall w,
  (forall k, (k < List.length records)%nat -> db_fault E (asked w + k) = None) ->
  exists w', for_records src E records w = (Returned tt, w').
Proof.
  induction records as [|r records IH]; intros w H; simpl.
  - eexists. reflexivity.
  - unfold bind, execute_insert. rewrite db_call_eq.
    pose proof (H 0%nat ltac:(simpl; lia)) as H0. rewrite Nat.add_0_r in H0.
    rewrite H0. apply IH. simpl. intros k Hk.
    replace (S (asked w + k))%nat with (asked w + S k)%nat by lia.
    apply H. simpl. lia.
Qed.

Lemma for_records_raised records : forall w w' e,
  for_records src E records w = (Raised e, w') ->
  trace w' = trace w
  /\ committed (db w') = committed (db w)
  /\ exists k, (k < List.length records)%nat
               /\ db_fault E (asked w + k) = Some e
               /\ forall j, (j < k)%nat -> db_fault E (asked w + j) = None.
Proof.
  induction records as [|r records IH]; intros w w' e H; simpl in H;
    [discriminate|].
  unfold bind, execute_insert in H. rewrite db_call_eq in H.
  destruct (db_fault E (asked w)) as [e0|] eqn:Hf.
  - inversion H; subst. split; [reflexivity|]. split; [reflexivity|].
    exists 0%nat. rewrite Nat.add_0_r. repeat split; [simpl; lia | exact Hf | lia].
  - apply IH in H. simpl in H. destruct H as [Ht [Hc [k [Hk [Hs Hn]]]]].
    split; [exact Ht|]. split; [exact Hc|].
    exists (S k). split; [simpl; lia|]. split.
    + replace (asked w + S k)%nat with (S (asked w) + k)%nat by lia. exact Hs.
    + intros j Hj. destruct j as [|j]; [now rewrite Nat.add_0_r|].
      replace (asked w + S j)%nat with (S (asked w) + j)%nat by lia.
      apply Hn. lia.
Qed.

Lemma extends_refl l : extends l l.
Proof. exists []. now rewrite app_nil_r. Qed.

Lemma extends_trans a b c : extends a b -> extends b c -> extends a c.
Proof. intros [x ->] [y ->]. exists (x ++ y). now rewrite app_assoc. Qed.

Lemma insert_ignore_extends r rows : extends rows (insert_ignore src r rows).
Proof.
  unfold insert_ignore. destruct (_ || _).
  - apply extends_refl.
  - now exists [r].
Qed.





End BatchFacts.

(** X9. [store_records] returns exactly when none of its database calls
    raises: the cursor, one [execute] for each record, and the commit. *)
Theorem store_records_returns_iff
    (src : source_file) (E : env) (records : list record) (w : world) :
  (exists w', store_records src E records w = (Returned tt, w'))
  <-> (forall k, (k < List.length records + 2)%nat ->
                 db_fault E (asked w + k) = None).
Proof.
  split.
  - intros [w' H]. apply logging_database_errors_returned in H.
    unfold bind, cursor, commit in H. rewrite db_call_eq in H.
    destruct (db_fault E (asked w)) eqn:H0; [discriminate|].
    destruct (for_records src E records _) as [[[]|e] w1] eqn:Hf; [|discriminate].
    apply for_records_returned_calls in Hf. simpl in Hf.
    destruct Hf as [_ [Ha Hn]].
    rewrite db_call_eq in H. destruct (db_fault E (asked w1)) eqn:H1; [discriminate|].
    intros k Hk. destruct k as [|k]; [now rewrite Nat.add_0_r|].
    destruct (Nat.eq_dec k (List.length records)) as [->|Hne].
    + rewrite Ha in H1. replace (asked w + S _)%nat with (S (asked w + List.length records)) by lia.
      exact H1.
    + replace (asked w + S k)%nat with (S (asked w) + k)%nat by lia.
      apply Hn. lia.
  - intros H. unfold store_records, logging_database_errors, try_except, bind,
      cursor, commit.
    rewrite db_call_eq.
    pose proof (H 0%nat ltac:(lia)) as H0. rewrite Nat.add_0_r in H0. rewrite H0.
    set (w0 := {| trace := trace w; asked := S (asked w); db := db w; sink := sink w |}).
    destruct (for_records_calls_returned src E records w0) as [w1 H1].
    { intros k Hk. subst w0. simpl.
      replace (S (asked w + k))%nat with (asked w + S k)%nat by lia.
      apply H. lia. }
    rewrite H1.
    destruct (for_records_returned_calls src E records w0 w1 H1) as [_ [Ha _]].
    rewrite db_call_eq, Ha. subst w0. simpl.
    replace (S (asked w + List.length records))%nat
      with (asked w + S (List.length records))%nat by lia.
    rewrite H by lia. unfold logger, emit. eexists. reflexivity.
Qed.

(** X10. When [store_records] raises, it raises the exception of its
    first database call that failed; no row of the batch is committed;
    and the failure is logged, as the one line the call adds to the log,
    when it is an error of the driver, and not logged when it is not. *)
Theorem store_records_raises
    (src : source_file) (E : env) (records : list record) (w w' : world) (e : exn) :
  store_records src E records w = (Raised e, w') ->
  committed (db w') = committed (db w)
  /\ (exists k, (k < List.length records + 2)%nat
                /\ db_fault E (asked w + k) = Some e
                /\ forall j, (j < k)%nat -> db_fault E (asked w + j) = None)
  /\ log_lines (trace w')
     = log_lines (trace w)
       ++ (if is_database_error e then [(ERROR, Error_storing_records e)] else []).
Proof.
  intros H.
  assert (G : forall w1,
            (cursor E ;; for_records src E records ;; commit E ;;
             logger INFO (Stored_records (List.length records)))%M w = (Raised e, w1) ->
            committed (db w1) = committed (db w)
            /\ (exists k, (k < List.length records + 2)%nat
                          /\ db_fault E (asked w + k) = Some e
                          /\ forall j, (j < k)%nat -> db_fault E (asked w + j) = None)
            /\ trace w1 = trace w).
  { intros w1 H1. unfold bind, cursor, commit in H1. rewrite db_call_eq in H1.
    destruct (db_fault E (asked w)) as [e0|] eqn:H0.
    - inversion H1; subst. split; [reflexivity|]. split; [|reflexivity].
      exists 0%nat. rewrite Nat.add_0_r. repeat split; [lia | exact H0 | lia].
    - destruct (for_records src E records _) as [[[]|e1] w2] eqn:Hf.
      + destruct (for_records_returned src E records _ _ Hf) as [Hc _].
        apply for_records_returned_calls in Hf. simpl in Hf, Hc.
        destruct Hf as [Ht [Ha Hn]].
        rewrite db_call_eq in H1.
        destruct (db_fault E (asked w2)) as [e2|] eqn:H2; [|discriminate].
        inversion H1; subst. simpl. split; [exact Hc|].
        split; [|exact Ht].
        exists (S (List.length records)). split; [lia|]. split.
        * rewrite Ha in H2.
          replace (asked w + S _)%nat with (S (asked w) + List.length records)%nat by lia.
          exact H2.
        * intros j Hj. destruct j as [|j]; [now rewrite Nat.add_0_r|].
          replace (asked w + S j)%nat with (S (asked w) + j)%nat by lia.
          apply Hn. lia.
      + inversion H1; subst.
        apply for_records_raised in Hf. simpl in Hf.
        destruct Hf as [Ht [Hc [k [Hk [Hs Hn]]]]].
        split; [exact Hc|]. split; [|exact Ht].
        exists (S k). split; [lia|]. split.
        * replace (asked w + S k)%nat with (S (asked w) + k)%nat by lia. exact Hs.
        * intros j Hj. destruct j as [|j]; [now rewrite Nat.add_0_r|].
          replace (asked w + S j)%nat with (S (asked w) + j)%nat by lia.
          apply Hn. lia. }
  unfold store_records, logging_database_errors, try_except in H.
  destruct ((cursor E ;; for_records src E records ;; commit E ;;
             logger INFO (Stored_records (List.length records)))%M w)
    as [[[]|e1] w1] eqn:Hm; [discriminate|].
  destruct (is_database_error e1) eqn:Hd.
  - unfold bind, logger, emit, raise in H. inversion H; subst.
    destruct (G w1 eq_refl) as [Hc [Hk Ht]]. simpl.
    split; [exact Hc|]. split; [exact Hk|].
    rewrite Hd, Ht. clear. induction (trace w) as [|ev l IH]; [reflexivity|].
    destruct ev; simpl; rewrite ?IH; reflexivity.
  - unfold raise in H. inversion H; subst.
    destruct (G w' eq_refl) as [Hc [Hk Ht]].
    split; [exact Hc|]. split; [exact Hk|]. rewrite Hd, Ht, app_nil_r. reflexivity.
Qed.

(** An instance: the [execute] of the second of two records fails. *)
Lemma store_records_raises_witness :
  committed (db (snd (store_records scraper_py (database_fails_at 2)
                        [Sample.acme; Sample.bolt] Sample.start)))
  = committed (db Sample.start).
Proof.
  apply (store_records_raises scraper_py (database_fails_at 2) [Sample.acme; Sample.bolt]
           Sample.start _ DatabaseError).
  vm_compute. reflexivity.
Defined.





(** ** Runs *)

Section MoreRunFacts.

Variable E : env.

Lemma connect_db w : db (snd (connect E w)) = db w.
Proof.
  unfold connect. rewrite logging_database_errors_db.
  unfold bind. rewrite db_call_eq.
  destruct (db_fault E (asked w)); reflexivity.
Qed.

Lemma connect_raised w e :
  db_fault E (asked w) = Some e ->
  fst (connect E w) = Raised e
  /\ request_urls (trace (snd (connect E w))) = request_urls (trace w)
  /\ sink (snd (connect E w)) = sink w.
Proof.
  intros H. unfold connect, logging_database_errors, try_except, bind.
  rewrite db_call_eq, H.
  destruct (is_database_error e); simpl; repeat split;
    rewrite ?request_urls_app, ?app_nil_r; reflexivity.
Qed.

Lemma rows_kept_refl w : rows_kept w w.
Proof. intros H. split; [exact H | apply extends_refl]. Qed.

Lemma rows_kept_trans a b c : rows_kept a b -> rows_kept b c -> rows_kept a c.
Proof.
  intros Hab Hbc Ha. destruct (Hab Ha) as [Hb Eb]. destruct (Hbc Hb) as [Hc Ec].
  split; [exact Hc | eapply extends_trans; eassumption].
Qed.

Lemma rows_kept_db src f w :
  db_op src f -> rows_kept w (snd (set_db (f (db w)) w)).
Proof.
  intros Hf Hw. destruct Hf; simpl.
  - split; [exact Hw | apply extends_refl].
  - split; [|apply extends_refl].
    eapply extends_trans; [exact Hw | apply insert_ignore_extends].
  - split; [apply extends_refl | exact Hw].
  - split; apply extends_refl.
Qed.

(** What [save_logs] writes: nothing, or one object that counts the
    records it was given. *)
Lemma save_logs_at_most_one src records w :
  sink (snd (save_logs src E records w)) = sink w
  \/ exists name stamp,
       sink (snd (save_logs src E records w))
       = sink w ++ [(name, {| timestamp := stamp;
                              records_processed := List.length records |})].
Proof.
  unfold save_logs, sink_call, bind, ask, try_except. destruct src; simpl.
  - destruct (sink_fault E (S (S (asked w)))); simpl; [now left|].
    right. eexists _, _. reflexivity.
  - destruct (sink_fault E (S (asked w))); simpl; [now left|].
    destruct (sink_fault E (S (S (S (asked w))))); simpl; [now left|].
    right. eexists _, _. reflexivity.
Qed.

End MoreRunFacts.

(** X13. When the connection to the database fails, a run, of either
    file, returns without raising, sends no request, and leaves the
    database and the log sink as they are. *)
Theorem run_without_database
    (E : env) (src : source_file) (w : world) (e : exn) :
  db_fault E (asked w) = Some e ->
  fst (run E src w) = Returned tt
  /\ request_urls (trace (snd (run E src w))) = request_urls (trace w)
  /\ db (snd (run E src w)) = db w
  /\ sink (snd (run E src w)) = sink w.
Proof.
  intros H. destruct (connect_raised E w e H) as [Hc [Hu Hs]].
  pose proof (connect_db E w) as Hd.
  destruct src; unfold run, main_scraper, main;
    destruct (connect E w) as [o w0]; simpl in Hc, Hu, Hs, Hd; subst o; simpl;
    rewrite ?request_urls_app, ?app_nil_r; repeat split; assumption.
Qed.

Lemma run_without_database_witness :
  fst (run (database_fails_at 0) scraper_py Sample.start) = Returned tt.
Proof.
  apply (run_without_database (database_fails_at 0) scraper_py Sample.start
           DatabaseError).
  reflexivity.
Defined.

(** X14. A run, of either file and in any environment, never removes or
    changes a committed row: started where the transaction of the
    connection sits on top of the committed rows, it ends with the rows
    that were committed, in their order, as the first committed rows. *)
Theorem run_keeps_rows (E : env) (src : source_file) (w : world) :
  extends (committed (db w)) (working (db w)) ->
  extends (committed (db w)) (committed (db (snd (run E src w)))).
Proof.
  intros H.
  pose proof (steps_run rows_kept) as G. unfold steps_by in G.
  refine (proj2 (G _ _ _ _ src _ E _ w H)).
  - apply rows_kept_refl.
  - apply rows_kept_trans.
  - intros ev w0 H0. split; [exact H0 | apply extends_refl].
  - intros w0 H0. split; [exact H0 | apply extends_refl].
  - apply rows_kept_db.
  - intros name l w0 H0. split; [exact H0 | apply extends_refl].
Qed.

Lemma run_keeps_rows_witness :
  extends [Sample.bolt]
          (committed (db (snd (run Sample.page2_down main_py
                                 {| trace := []; asked := 0;
                                    db := {| committed := [Sample.bolt];
                                             working := [Sample.bolt] |};
                                    sink := [] |})))).
Proof.
  apply (run_keeps_rows Sample.page2_down main_py
           {| trace := []; asked := 0;
              db := {| committed := [Sample.bolt]; working := [Sample.bolt] |};
              sink := [] |}).
  exists []. reflexivity.
Defined.



(** X16. After a run from a reachable state of the table, of either file
    and in any environment, no two committed rows have the same
    (company, year, agency, penalty_amount). *)
Theorem run_keeps_unique (E : env) (src : source_file) (w : world) :
  reachable src (db w) ->
  NoDup (map unique_key (committed (db (snd (run E src w))))).
Proof.
  intros H. apply clash_free_NoDup.
  apply (reachable_clash_free src _ (run_reachable E src w H)).
Qed.

Lemma run_keeps_unique_witness :
  NoDup (map unique_key
           (committed (db (snd (run Sample.page2_down main_py Sample.start))))).
Proof.
  apply (run_keeps_unique Sample.page2_down main_py Sample.start).
  exact (reach_empty main_py).
Defined.

(** X17. A run, of either file and in any environment, writes at most
    one log object; when it writes one, the connection and the table
    were set up, and the object counts the records the pages then gave. *)
Theorem run_logs_at_most_once (E : env) (src : source_file) (w : world) :
  sink (snd (run E src w)) = sink w
  \/ exists name stamp records,
       fst (connect E w) = Returned tt
       /\ fst (create_table E (snd (connect E w))) = Returned tt
       /\ fst (scrape_violation_tracker src E
                 (snd (create_table E (snd (connect E w)))))
          = Returned records
       /\ sink (snd (run E src w))
          = sink w ++ [(name, {| timestamp := stamp;
                                 records_processed := List.length records |})].
Proof.
  pose proof (connect_sink E w) as Sc.
  destruct (connect E w) as [[[]|ec] w0] eqn:Ec; simpl in Sc.
  2:{ left. destruct src; unfold run, main_scraper, main; rewrite Ec; simpl;
        exact Sc. }
  cbn [snd fst].
  pose proof (create_table_sink E w0) as St.
  destruct (create_table E w0) as [[[]|et] w1] eqn:Et; simpl in St.
  2:{ left. destruct src; unfold run, main_scraper, main, try_finally, bind;
        rewrite Ec, Et; simpl; congruence. }
  cbn [snd fst].
  pose proof (scrape_sink E src w1) as Ss.
  destruct (scrape_returns src E w1) as [records Hr].
  destruct (scrape_violation_tracker src E w1) as [os w2] eqn:Es.
  simpl in Hr, Ss. subst os. cbn [fst].
  pose proof (store_records_sink E src records w2) as S3.
  assert (Hsave : forall w3, sink w3 = sink w ->
            sink (snd (save_logs src E records w3)) = sink w
            \/ exists name stamp,
                 sink (snd (save_logs src E records w3))
                 = sink w ++ [(name, {| timestamp := stamp;
                                        records_processed := List.length records |})]).
  { intros w3 H3. destruct (save_logs_at_most_one E src records w3) as [H|[n [s H]]].
    - left. congruence.
    - right. exists n, s. congruence. }
  destruct src.
  - unfold run, main_scraper. rewrite Ec. unfold bind. rewrite Et, Es.
    destruct (nonempty records).
    + destruct (store_records _ E records w2) as [[[]|e3] w3]; simpl in S3.
      * destruct (Hsave w3 ltac:(congruence)) as [H|[n [s H]]];
          destruct (save_logs main_py E records w3) as [[[]|e4] w4]; simpl in *;
          solve [left; exact H | right; exists n, s, records; auto].
      * left. simpl. congruence.
    + left. simpl. congruence.
  - unfold run, main. rewrite Ec. unfold try_finally, bind. rewrite Et, Es.
    destruct (nonempty records).
    + destruct (store_records _ E records w2) as [[[]|e3] w3]; simpl in S3.
      * destruct (Hsave w3 ltac:(congruence)) as [H|[n [s H]]];
          destruct (save_logs scraper_py E records w3) as [[[]|e4] w4];
          simpl in H;
          try (pose proof (verify_results_sink E w4) as S5;
               destruct (verify_results E w4) as [o5 w5]; simpl in S5);
          simpl;
          solve [left; congruence
                | right; exists n, s, records; repeat split; congruence].
      * left. simpl. congruence.
    + unfold ret.
      destruct (Hsave w2 ltac:(congruence)) as [H|[n [s H]]];
        destruct (save_logs scraper_py E records w2) as [[[]|e4] w4];
        simpl in H;
        try (pose proof (verify_results_sink E w4) as S5;
             destruct (verify_results E w4) as [o5 w5]; simpl in S5);
        simpl;
        solve [left; congruence
              | right; exists n, s, records; repeat split; congruence].
Qed.

(** ** Decimal numerals *)

Section NumeralFacts.





















End NumeralFacts.



(** ** The log of a page *)

Section PageLogFacts.

Lemma rows_give_length rows recs :
  rows_give rows recs -> List.length recs = List.length rows.
Proof. intros H. symmetry. eapply Forall2_length, H. Qed.

Lemma retry_events_no_scraped url n0 k n p :
  ~ In (Log INFO (Scraped_records n p)) (flat_map (retry_events url) (seq n0 k)).
Proof.
  intros H. apply in_flat_map in H. destruct H as [i [_ Hi]].
  simpl in Hi. destruct Hi as [Hi|[Hi|[Hi|[]]]]; discriminate.
Qed.

End PageLogFacts.

(** X18. The line "Scraped n records from page p" tells the truth. A
    page turn writes it exactly when its page is fetched, has a table
    with a body, and every row of the body gives a record; the line then
    names the page of the turn and the number of those rows, which is the
    number of records the turn has added. A turn whose fetch raises, that
    finds no table or no body, or one of whose rows raises does not write
    it. *)
Theorem scraped_line_counts
    (src : source_file) (E : env) (page : nat) (records : list record)
    (w : world) (n p : nat) :
  ~ In (Log INFO (Scraped_records n p)) (trace w) ->
  (In (Log INFO (Scraped_records n p))
      (trace (snd (scrape_page src E page records w)))
   <-> p = page
       /\ exists rows recs,
            fst (fetch_page src E (page_url page) (snd (sleep 10 w)))
            = Returned (page_of rows)
            /\ rows_give rows recs
            /\ n = List.length rows)
  /\ (In (Log INFO (Scraped_records n p))
         (trace (snd (scrape_page src E page records w))) ->
      exists recs,
        fst (scrape_page src E page records w) = records ++ recs
        /\ List.length recs = n).
Proof.
  intros Hold.
  assert (Hiff :
    In (Log INFO (Scraped_records n p))
       (trace (snd (scrape_page src E page records w)))
    <-> p = page
        /\ exists rows recs,
             fst (fetch_page src E (page_url page) (snd (sleep 10 w)))
             = Returned (page_of rows)
             /\ rows_give rows recs
             /\ n = List.length rows).
  { unfold scrape_page, try_page, fetch_page.
    destruct (retrying_events src E (page_url page) 3 1 (snd (sleep 10 w)))
      as [k [_ Ht]].
    destruct (retrying src E 3 1 (page_url page) (snd (sleep 10 w))) as [o w1];
      simpl in Ht. cbn [fst].
    assert (Hpre : forall line,
              In (Log INFO (Scraped_records n p)) (trace w1 ++ [line]) <->
              line = Log INFO (Scraped_records n p)).
    { intros line. split.
      - intros H. rewrite Ht in H.
        apply in_app_or in H. destruct H as [H|[H|[]]]; [|congruence].
        apply in_app_or in H. destruct H as [H|H].
        + apply in_app_or in H.
          destruct H as [H|[H|[]]]; [contradiction | discriminate].
        + destruct H as [H|H]; [discriminate|].
          exfalso. eapply retry_events_no_scraped, H.
      - intros ->. apply in_or_app. right. now left. }
    destruct o as [html|e].
    2:{ simpl. rewrite Hpre. split.
        - intros H. destruct src; simpl in H; try discriminate;
            destruct (retry_if_HTTPError e); discriminate.
        - intros [_ [rows [recs [H _]]]]. discriminate. }
    destruct html as [[[[rows|]]|]]; simpl.
    - destruct (for_rows rows records) as [records' o] eqn:Hf.
      destruct o as [[]|e]; simpl; rewrite Hpre.
      + apply for_rows_inv in Hf. destruct Hf as [recs [Hg _]]. split.
        * intros H. inversion H; subst. split; [reflexivity|].
          exists rows, recs. repeat split. exact Hg.
        * intros [-> [rows' [recs' [H [_ ->]]]]]. inversion H; subst. reflexivity.
      + split.
        * intros H. destruct src; simpl in H; try discriminate;
            destruct (retry_if_HTTPError e); discriminate.
        * intros [_ [rows' [recs' [H [Hg _]]]]]. inversion H; subst rows'.
          rewrite (for_rows_give rows recs' records Hg) in Hf. discriminate.
    - rewrite Hpre. split.
      + intros H. destruct src; simpl in H; discriminate.
      + intros [_ [rows [recs [H _]]]]. discriminate.
    - rewrite Hpre. split.
      + intros H. destruct src; discriminate.
      + intros [_ [rows [recs [H _]]]]. discriminate. }
  split; [exact Hiff|].
  intros H. apply Hiff in H. destruct H as [_ [rows [recs [Hf [Hg ->]]]]].
  exists recs. split.
  - apply (scrape_page_adds src E page records w rows recs Hf Hg).
  - apply rows_give_length, Hg.
Qed.

(** Instances: page 1 is fetched and gives one record; page 2 fails, and
    its turn writes no such line, whatever the numbers. *)
Lemma scraped_line_counts_witness :
  In (Log INFO (Scraped_records 1 1))
     (trace (snd (scrape_page main_py Sample.page2_down 1 [] Sample.start)))
  /\ ~ In (Log INFO (Scraped_records 0 2))
         (trace (snd (scrape_page main_py Sample.page2_down 2 [] Sample.start))).
Proof.
  split.
  - destruct (scraped_line_counts main_py Sample.page2_down 1 [] Sample.start 1 1)
      as [[_ H] _].
    + intros [].
    + apply H. split; [reflexivity|]. exists [Sample.acme_row], [Sample.acme].
      split; [reflexivity|]. split; [repeat constructor | reflexivity].
  - destruct (scraped_line_counts main_py Sample.page2_down 2 [] Sample.start 0 2)
      as [[H _] _].
    + intros [].
    + intros Hin. destruct (H Hin) as [_ [rows [recs [Hf _]]]].
      vm_compute in Hf. discriminate.
Defined.
